(** * TARS: command interpretation and personality state

    A shallow embedding of [tars.py]: the two regular expressions of
    [adjust_personality] run on a small backtracking matcher, the
    personality levels are IEEE 754 binary64 values ([SpecFloat] with
    [prec = 53] and [emax = 1024]), and the functions that touch the
    globals or the outside world ([speak], [subprocess], [chat]) live in
    a state-and-trace monad.

    Strings are sequences of one-byte characters: ASCII text is itself,
    any other text is carried as its UTF-8 bytes.  The classes [\s] and
    [\d] and [str.strip] are modelled on ASCII. *)

From Stdlib Require Import Bool Arith ZArith List String Ascii Lia.
From Stdlib Require Import SpecFloat DecimalString.
Import ListNotations.

Local Open Scope string_scope.

(* ===================================================================== *)
(** ** Strings *)

Module Str.

(** [sub in s] of Python, for strings. *)
Fixpoint contains (sub s : string) : bool :=
  if String.prefix sub s then true
  else match s with
       | EmptyString => false
       | String _ s' => contains sub s'
       end.

(** [any(w in s for w in ws)]. *)
Definition contains_any (ws : list string) (s : string) : bool :=
  existsb (fun w => contains w s) ws.

(** [str.isspace] on one character: TAB, LF, VT, FF, CR, FS, GS, RS, US
    and the space.  The class [\s] of [re] is the same set. *)
Definition is_space (c : ascii) : bool :=
  let n := nat_of_ascii c in
  ((9 <=? n)%nat && (n <=? 13)%nat) || ((28 <=? n)%nat && (n <=? 32)%nat).

(** The class [\d]. *)
Definition is_digit (c : ascii) : bool :=
  let n := nat_of_ascii c in (48 <=? n)%nat && (n <=? 57)%nat.

(** The class [[.!?]]. *)
Definition is_terminator (c : ascii) : bool :=
  (c =? ".")%char || (c =? "!")%char || (c =? "?")%char.

Fixpoint all (p : ascii -> bool) (s : string) : bool :=
  match s with
  | EmptyString => true
  | String c s' => p c && all p s'
  end.

Fixpoint lstrip (s : string) : string :=
  match s with
  | String c s' => if is_space c then lstrip s' else s
  | EmptyString => EmptyString
  end.

Fixpoint rstrip (s : string) : string :=
  match s with
  | EmptyString => EmptyString
  | String c s' =>
      match rstrip s' with
      | EmptyString => if is_space c then EmptyString else String c EmptyString
      | t => String c t
      end
  end.

(** [s.strip()]. *)
Definition strip (s : string) : string := rstrip (lstrip s).

Fixpoint last (s : string) : option ascii :=
  match s with
  | EmptyString => None
  | String c EmptyString => Some c
  | String _ s' => last s'
  end.

(** [s.endswith(('.', '!', '?'))]. *)
Definition ends_with_terminator (s : string) : bool :=
  match last s with
  | Some c => is_terminator c
  | None => false
  end.

(** Truth value of a string: [bool(s)]. *)
Definition truthy (s : string) : bool :=
  match s with EmptyString => false | _ => true end.

(** Truth value of [None] or a string. *)
Definition truthy_opt (o : option string) : bool :=
  match o with Some s => truthy s | None => false end.

End Str.

(* ===================================================================== *)
(** ** Regular expressions

    The fragment of [re] that the two patterns use: literals, the
    one-character classes under greedy [*] and [+], concatenation,
    ordered alternation, greedy [?] and capturing groups.  The matcher
    backtracks in the order of [re]: an alternative, a longer repetition
    or a present optional part is tried first, and the first success is
    the match. *)

Module Re.

Inductive t : Type :=
| Lit (l : string)
| Star (cls : ascii -> bool)
| Plus (cls : ascii -> bool)
| Seq (r1 r2 : t)
| Alt (r1 r2 : t)
| Opt (r : t)
| Grp (n : nat) (r : t).

(** Groups in the order they were closed, the latest first. *)
Definition captures := list (nat * string).

(** [m.group(n)]: [None] for a group that took no part in the match. *)
Fixpoint group (m : captures) (n : nat) : option string :=
  match m with
  | [] => None
  | (k, w) :: m' => if Nat.eqb k n then Some w else group m' n
  end.

Section Matcher.
Context {A : Type}.

(** The continuation gets the text the node consumed, the text left,
    and the groups so far. *)
Definition cont := string -> string -> captures -> option A.

Definition or_else (x : option A) (y : option A) : option A :=
  match x with Some _ => x | None => y end.

Fixpoint strip_prefix (l s : string) : option string :=
  match l, s with
  | EmptyString, _ => Some s
  | String a l', String b s' =>
      if (a =? b)%char then strip_prefix l' s' else None
  | String _ _, EmptyString => None
  end.

(** Greedy [cls*]: the longest run first, then shorter ones. *)
Fixpoint star (cls : ascii -> bool) (s : string) (c : captures)
         (k : cont) : option A :=
  match s with
  | String a s' =>
      if cls a
      then or_else (star cls s' c (fun w => k (String a w)))
                   (k EmptyString s c)
      else k EmptyString s c
  | EmptyString => k EmptyString s c
  end.

Fixpoint run (r : t) (s : string) (c : captures) (k : cont) : option A :=
  match r with
  | Lit l =>
      match strip_prefix l s with
      | Some s' => k l s' c
      | None => None
      end
  | Star cls => star cls s c k
  | Plus cls =>
      match s with
      | String a s' =>
          if cls a then star cls s' c (fun w => k (String a w)) else None
      | EmptyString => None
      end
  | Seq r1 r2 =>
      run r1 s c (fun w1 s1 c1 =>
      run r2 s1 c1 (fun w2 => k (w1 ++ w2)))
  | Alt r1 r2 => or_else (run r1 s c k) (run r2 s c k)
  | Opt r1 => or_else (run r1 s c k) (k EmptyString s c)
  | Grp n r1 => run r1 s c (fun w s' c' => k w s' ((n, w) :: c'))
  end.
End Matcher.

(** [re.match(r, s)]: the groups of the first match at the start of [s]. *)
Definition match_here (r : t) (s : string) : option captures :=
  run r s [] (fun _ _ c => Some c).

(** [re.search(r, s)]: the first match at the leftmost position. *)
Fixpoint search (r : t) (s : string) : option captures :=
  match match_here r s with
  | Some m => Some m
  | None =>
      match s with
      | String _ s' => search r s'
      | EmptyString => None
      end
  end.

(** [re.fullmatch(r, s)]: the first match that ends at the end of [s]. *)
Definition fullmatch (r : t) (s : string) : option captures :=
  run r s [] (fun _ s' c => if Str.truthy s' then None else Some c).

(** What a match is, apart from the order of the search: [matches r w
    c c'] when [r] can consume exactly [w] and the groups [c] become
    [c']. *)
Inductive matches : t -> string -> captures -> captures -> Prop :=
| m_lit l c : matches (Lit l) l c c
| m_star cls w c : Str.all cls w = true -> matches (Star cls) w c c
| m_plus cls a w c :
    cls a = true -> Str.all cls w = true -> matches (Plus cls) (String a w) c c
| m_seq r1 r2 w1 w2 c c1 c2 :
    matches r1 w1 c c1 -> matches r2 w2 c1 c2 ->
    matches (Seq r1 r2) (w1 ++ w2) c c2
| m_alt_l r1 r2 w c c' : matches r1 w c c' -> matches (Alt r1 r2) w c c'
| m_alt_r r1 r2 w c c' : matches r2 w c c' -> matches (Alt r1 r2) w c c'
| m_opt_some r w c c' : matches r w c c' -> matches (Opt r) w c c'
| m_opt_none r c : matches (Opt r) EmptyString c c
| m_grp n r w c c' : matches r w c c' -> matches (Grp n r) w c ((n, w) :: c').

(** A continuation that accepts whatever another one accepts. *)
Definition accepts_more {A B : Type} (k : @cont A) (k' : @cont B) : Prop :=
  forall w s c, k w s c <> None -> k' w s c <> None.

(** A pattern written as the list of its parts, left to right. *)
Fixpoint cat (rs : list t) : t :=
  match rs with
  | [] => Lit EmptyString
  | [r] => r
  | r :: rs' => Seq r (cat rs')
  end.

End Re.

(* ===================================================================== *)
(** ** Floats

    Python's [float] is IEEE 754 binary64.  The operations below are the
    ones of [SpecFloat] at that format, with round to nearest, ties to
    even. *)

Module Float.

Definition prec : Z := 53.
Definition emax : Z := 1024.

Definition float := spec_float.

Definition mul : float -> float -> float := SFmul prec emax.
Definition div : float -> float -> float := SFdiv prec emax.
Definition ltb : float -> float -> bool := SFltb.
Definition leb : float -> float -> bool := SFleb.

Definition pow10 (k : nat) : positive := Nat.iter k (Pos.mul 10) 1%positive.

(** The float nearest to [n / 10^k]: what a decimal literal, or [float]
    on a decimal numeral, denotes.  The quotient of the two integers is
    rounded once. *)
Definition of_decimal (n : N) (k : nat) : float :=
  match n with
  | N0 => S754_zero false
  | Npos p => div (S754_finite false p 0) (S754_finite false (pow10 k) 0)
  end.

(** The literals of the program. *)
Definition f0_0 : float := of_decimal 0 1.
Definition f1_0 : float := of_decimal 10 1.
Definition f100_0 : float := of_decimal 1000 1.
Definition f0_8 : float := of_decimal 8 1.
Definition f0_6 : float := of_decimal 6 1.

(** An [int] operand of a float operation is converted first. *)
Definition of_int (n : N) : float := of_decimal n 0.

(** Value of a run of decimal digits read after [acc]; [None] when a
    character is not a digit. *)
Fixpoint digits (acc : N) (s : string) : option N :=
  match s with
  | EmptyString => Some acc
  | String c s' =>
      if Str.is_digit c
      then digits (10 * acc + (N_of_ascii c - 48)) s'
      else None
  end.

(** The text before the first [.], and the text after it when there is
    one. *)
Fixpoint split_point (s : string) : string * option string :=
  match s with
  | EmptyString => (EmptyString, None)
  | String c s' =>
      if (c =? ".")%char then (EmptyString, Some s')
      else let '(i, f) := split_point s' in (String c i, f)
  end.

(** [float(s)] for an unsigned numeral without exponent: digits, then
    optionally a point and digits, with a digit somewhere.  [None] is
    the [ValueError] of any other text; signs, exponents, [inf] and
    [nan] never reach [float] from the two patterns. *)
Definition of_string (s : string) : option float :=
  let '(i, f) := split_point s in
  let f := match f with Some f => f | None => EmptyString end in
  if Str.truthy (i ++ f)
  then match digits 0 (i ++ f) with
       | Some n => Some (of_decimal n (String.length f))
       | None => None
       end
  else None.

(** [min(a, b)] and [max(a, b)] of Python: the first argument unless the
    second is strictly smaller (larger). *)
Definition min (a b : float) : float := if ltb b a then b else a.
Definition max (a b : float) : float := if ltb a b then b else a.

(** The integer nearest to [m * 2^e], ties to even. *)
Definition nearest_even (m : positive) (e : Z) : Z :=
  match e with
  | Zneg p =>
      let d := Z.pow_pos 2 p in
      let q := (Zpos m / d)%Z in
      match (2 * (Zpos m mod d) ?= d)%Z with
      | Lt => q
      | Gt => (q + 1)%Z
      | Eq => if Z.even q then q else (q + 1)%Z
      end
  | _ => (Zpos m * 2 ^ e)%Z
  end.

(** The texts of [\d+(?:\.\d+)?]. *)
Inductive numeral : string -> Prop :=
| num_int a d :
    Str.is_digit a = true -> Str.all Str.is_digit d = true ->
    numeral (String a d)
| num_frac a d b e :
    Str.is_digit a = true -> Str.all Str.is_digit d = true ->
    Str.is_digit b = true -> Str.all Str.is_digit e = true ->
    numeral (String a d ++ "." ++ String b e).

(** Zero, a positive number or the positive infinity, and not a NaN. *)
Definition is_nonneg (x : float) : bool :=
  match x with
  | S754_zero s | S754_infinity s | S754_finite s _ _ => negb s
  | S754_nan => false
  end.

(** [0.0 <= x <= 1.0]. *)
Definition in_unit (x : float) : bool := leb f0_0 x && leb x f1_0.

Definition sign (s : bool) : string := if s then "-" else "".

(** [format(x, '.0f')]. *)
Definition format_0f (x : float) : string :=
  match x with
  | S754_nan => "nan"
  | S754_infinity s => sign s ++ "inf"
  | S754_zero s => sign s ++ "0"
  | S754_finite s m e =>
      sign s ++ NilZero.string_of_uint (N.to_uint (Z.to_N (nearest_even m e)))
  end.

(** [f"{x*100:.0f}"]. *)
Definition percent (x : float) : string := format_0f (mul x (of_int 100)).

End Float.

(* ===================================================================== *)
(** ** The program *)

Module Tars.

Import Float.

(** The module globals [honesty_level], [humor_level], [pending_param]. *)
Record state : Type := {
  honesty_level : float;
  humor_level : float;
  pending_param : option string
}.

Definition initial : state :=
  {| honesty_level := f0_8; humor_level := f0_6; pending_param := None |}.

(** What the program does to the outside, in order.  [Print] carries the
    fixed part of a console line, without the text of the exception. *)
Inductive event : Type :=
| Speak (text : string)
| Print (line : string)
| Popen (argv : list string) (shell : bool)
| System (cmd : string)
| Chat (system_prompt user_input : string).

Inductive outcome : Type := Returns | Raises.

(** The value of a [message] entry or attribute: a dict with or without
    a [content] key, or an object with or without a [content]
    attribute. *)
Inductive message : Type :=
| MsgDict (content : option string)
| MsgObj (content : option string).

(** What [chat] gives back: an exception, a dict with its [response] and
    [message] entries, or another object with or without
    [message.content]. *)
Inductive reply : Type :=
| ChatRaises
| ReplyDict (response : option string) (msg : option message)
| ReplyObj (message_content : option string).

(** The outside world during one turn. *)
Record world : Type := {
  os_name : string;
  popen : list string -> bool -> outcome;
  os_system : string -> outcome;
  chat : string -> string -> reply
}.

(** Computations that read the world, update the globals and leave a
    trace. *)
Definition M (A : Type) : Type := world -> state -> A * state * list event.

Definition ret {A} (a : A) : M A := fun _ st => (a, st, []).

Definition bind {A B} (m : M A) (f : A -> M B) : M B :=
  fun w st =>
    let '(a, st1, t1) := m w st in
    let '(b, st2, t2) := f a w st1 in
    (b, st2, (t1 ++ t2)%list).

Notation "x <- m ;; f" := (bind m (fun x => f))
  (at level 61, m at next level, right associativity).
Notation "m ;; f" := (bind m (fun _ => f))
  (at level 61, right associativity).

Definition get : M state := fun _ st => (st, st, []).
Definition put (st : state) : M unit := fun _ _ => (tt, st, []).
Definition ask : M world := fun w st => (w, st, []).
Definition emit (e : event) : M unit := fun _ st => (tt, st, [e]).

Definition set_honesty_level (v : float) : M unit :=
  st <- get ;;
  put {| honesty_level := v; humor_level := humor_level st;
         pending_param := pending_param st |}.

Definition set_humor_level (v : float) : M unit :=
  st <- get ;;
  put {| honesty_level := honesty_level st; humor_level := v;
         pending_param := pending_param st |}.

Definition set_pending_param (p : option string) : M unit :=
  st <- get ;;
  put {| honesty_level := honesty_level st; humor_level := humor_level st;
         pending_param := p |}.

(** [speak]: the line on the console and the synthesis; a failure of the
    synthesis is caught inside. *)
Definition speak (text : string) : M unit := emit (Speak text).

Definition print (line : string) : M unit := emit (Print line).

(** *** [adjust_personality] *)

Import Re.

(** [(set|adjust)\s+(?:your\s+)?(honesty|humor)(\s+level)?\s+to\s+(\d+(?:\.\d+)?)(\s*%| percent)?] *)
Definition pattern_full : Re.t :=
  cat [ Grp 1 (Alt (Lit "set") (Lit "adjust"));
        Plus Str.is_space;
        Opt (Seq (Lit "your") (Plus Str.is_space));
        Grp 2 (Alt (Lit "honesty") (Lit "humor"));
        Opt (Grp 3 (Seq (Plus Str.is_space) (Lit "level")));
        Plus Str.is_space;
        Lit "to";
        Plus Str.is_space;
        Grp 4 (Seq (Plus Str.is_digit)
                   (Opt (Seq (Lit ".") (Plus Str.is_digit))));
        Opt (Grp 5 (Alt (Seq (Star Str.is_space) (Lit "%"))
                        (Lit " percent"))) ].

(** [(set|adjust)\s+it\s+to\s+(\d+(?:\.\d+)?)(\s*%| percent)?] *)
Definition pattern_it : Re.t :=
  cat [ Grp 1 (Alt (Lit "set") (Lit "adjust"));
        Plus Str.is_space;
        Lit "it";
        Plus Str.is_space;
        Lit "to";
        Plus Str.is_space;
        Grp 2 (Seq (Plus Str.is_digit)
                   (Opt (Seq (Lit ".") (Plus Str.is_digit))));
        Opt (Grp 3 (Alt (Seq (Star Str.is_space) (Lit "%"))
                        (Lit " percent"))) ].

(** Lines 66 to 69 and 88 to 91: the fraction a numeral stands for.
    [None] when [float] raises. *)
Definition normalize (value_str : option string)
           (percent_indicator : option string) : option float :=
  match value_str with
  | Some value_str =>
      match of_string value_str with
      | Some value =>
          let value :=
            if Str.truthy_opt percent_indicator || ltb (of_int 1) value
            then div value f100_0
            else value in
          Some (max f0_0 (min value f1_0))
      | None => None
      end
  | None => None
  end.

Definition option_eqb (o : option string) (s : string) : bool :=
  match o with Some x => String.eqb x s | None => false end.

Definition adjusted (param : string) (value : float) : string :=
  "Adjusted my " ++ param ++ " level to " ++ percent value ++ " percent.".

(** The second half of [adjust_personality], from line 81. *)
Definition adjust_pending (user_input : string) : M (option string) :=
  st <- get ;;
  match Re.search pattern_it user_input with
  | Some match2 =>
      if Str.truthy_opt (pending_param st) then
        match normalize (group match2 2) (group match2 3) with
        | Some value =>
            if option_eqb (pending_param st) "honesty" then
              set_honesty_level value ;;
              set_pending_param None ;;
              ret (Some (adjusted "honesty" value))
            else if option_eqb (pending_param st) "humor" then
              set_humor_level value ;;
              set_pending_param None ;;
              ret (Some (adjusted "humor" value))
            else
              (* [result] is unbound at [return result] *)
              set_pending_param None ;;
              print "Error adjusting personality with pending param: " ;;
              ret None
        | None =>
            print "Error adjusting personality with pending param: " ;;
            ret None
        end
      else ret None
  | None => ret None
  end.

Definition adjust_personality (user_input : string) : M (option string) :=
  match Re.search pattern_full user_input with
  | Some match_ =>
      let param := group match_ 2 in
      match normalize (group match_ 4) (group match_ 5) with
      | Some value =>
          if option_eqb param "honesty" then
            set_honesty_level value ;;
            set_pending_param None ;;
            ret (Some (adjusted "honesty" value))
          else if option_eqb param "humor" then
            set_humor_level value ;;
            set_pending_param None ;;
            ret (Some (adjusted "humor" value))
          else adjust_pending user_input
      | None =>
          print "Error adjusting personality: " ;;
          adjust_pending user_input
      end
  | None => adjust_pending user_input
  end.

(** *** [generate_llm_response] *)

Definition apology : string :=
  "I'm sorry, something went wrong with my response.".

Definition system_prompt (st : state) : string :=
  "You are TARS, the advanced AI from Interstellar. " ++
  "Your responses are governed by two parameters: honesty level and humor level. " ++
  "Your honesty level is " ++ percent (honesty_level st) ++
  " percent, meaning you are extremely direct, efficient, and clear. " ++
  "Your humor level is " ++ percent (humor_level st) ++
  " percent, so you incorporate dry wit and sarcasmâ€”but never at the expense of clarity. " ++
  "Remain strictly within the context of the movie (space travel, navigation, wormholes, mission challenges) and answer in one concise sentence without extraneous commentary.".

(** Lines 127 to 138: the text of the reply, stripped, or the empty
    string when the reply has none of the known shapes. *)
Definition reply_text (response : reply) : string :=
  match response with
  | ReplyDict r msg =>
      if Str.truthy_opt r
      then match r with Some r => Str.strip r | None => "" end
      else match msg with
           | Some (MsgDict (Some content)) => Str.strip content
           | Some (MsgDict None) => Str.strip ""
           | Some (MsgObj (Some content)) => Str.strip content
           | Some (MsgObj None) => ""
           | None => ""
           end
  | ReplyObj (Some content) => Str.strip content
  | ReplyObj None => ""
  | ChatRaises => ""
  end.

Definition cons_head (c : ascii) (pieces : list string) : list string :=
  match pieces with
  | p :: ps => String c p :: ps
  | [] => [String c EmptyString]
  end.

(** [re.split(r'(?<=[.!?])\s+', s)]: [s] is cut at every run of spaces
    that follows a terminator, and the runs are dropped.  [after] tells
    whether the character before [s] is a terminator; [skip] is inside
    a run. *)
Fixpoint split (after : bool) (s : string) {struct s} : list string :=
  match s with
  | EmptyString => [EmptyString]
  | String c s' =>
      if after && Str.is_space c
      then EmptyString :: skip s'
      else cons_head c (split (Str.is_terminator c) s')
  end
with skip (s : string) {struct s} : list string :=
  match s with
  | EmptyString => [EmptyString]
  | String c s' =>
      if Str.is_space c
      then skip s'
      else cons_head c (split (Str.is_terminator c) s')
  end.

Definition split_sentences (s : string) : list string := split false s.

(** Lines 140 to 148. *)
Definition one_liner (llm_response : string) : string :=
  let sentences := split_sentences llm_response in
  let llm_response :=
    match sentences with
    | first :: _ =>
        let llm_response := Str.strip first in
        if Str.ends_with_terminator llm_response
        then llm_response
        else llm_response ++ "."
    | [] => llm_response
    end in
  if negb (Str.truthy llm_response) then apology else llm_response.

Definition generate_llm_response (user_input : string) : M string :=
  st <- get ;;
  w <- ask ;;
  let prompt := system_prompt st in
  emit (Chat prompt user_input) ;;
  match chat w prompt user_input with
  | ChatRaises =>
      print "LLM error: " ;;
      ret apology
  | response =>
      print "Raw LLM response:" ;;
      ret (one_liner (reply_text response))
  end.

(** *** [execute_command] *)

Definition call_popen (argv : list string) (shell : bool) : M outcome :=
  w <- ask ;;
  emit (Popen argv shell) ;;
  ret (popen w argv shell).

Definition call_system (cmd : string) : M outcome :=
  w <- ask ;;
  emit (System cmd) ;;
  ret (os_system w cmd).

Definition execute_command (user_input : string) : M bool :=
  w <- ask ;;
  if Str.contains "open browser" user_input then
    r <- (if os_name w =? "posix" then call_popen ["open"; "-a"; "Google Chrome"] false
          else if os_name w =? "nt" then call_popen ["start"; "chrome"] true
          else ret Returns) ;;
    match r with
    | Returns => speak "Opening browser." ;; ret true
    | Raises => print "Error opening browser: " ;; ret false
    end
  else if Str.contains "system info" user_input then
    r <- (if os_name w =? "posix" then call_system "uname -a"
          else if os_name w =? "nt" then call_system "systeminfo"
          else ret Returns) ;;
    match r with
    | Returns => speak "Displaying system information." ;; ret true
    | Raises => print "Error retrieving system info: " ;; ret false
    end
  else ret false.

(** *** [main] *)

Inductive control : Type := Continue | Break.

(** The tests of lines 192 and 196. *)
Definition asks_honesty (user_input : string) : bool :=
  Str.contains "honesty" user_input && Str.contains "what" user_input
  && Str.contains "level" user_input.

Definition asks_humor (user_input : string) : bool :=
  Str.contains "humor" user_input && Str.contains "what" user_input
  && Str.contains "level" user_input.

Definition exit_words : list string := ["exit"; "shut down"; "goodbye"].

(** The body of the [while] loop, after [listen] has returned
    [user_input]. *)
Definition turn (user_input : string) : M control :=
  if negb (Str.truthy user_input) then ret Continue
  else
    st <- get ;;
    if asks_honesty user_input then
      set_pending_param (Some "honesty") ;;
      speak ("My honesty level is " ++ percent (honesty_level st) ++ " percent.") ;;
      ret Continue
    else if asks_humor user_input then
      set_pending_param (Some "humor") ;;
      speak ("My humor level is " ++ percent (humor_level st) ++ " percent.") ;;
      ret Continue
    else
      adjustment <- adjust_personality user_input ;;
      if Str.truthy_opt adjustment then
        speak (match adjustment with Some a => a | None => "" end) ;;
        ret Continue
      else if Str.contains_any exit_words user_input then
        speak "Shutting down. Goodbye." ;;
        ret Break
      else
        executed <- execute_command user_input ;;
        if executed then ret Continue
        else
          response <- generate_llm_response user_input ;;
          speak response ;;
          ret Continue.

(** The loop over what [listen] returns turn after turn, each with the
    world of that turn.  It stops at the first [Break]; when the inputs
    run out the program is still listening. *)
Fixpoint loop (inputs : list (world * string)) (st : state)
  : control * state * list event :=
  match inputs with
  | [] => (Continue, st, [])
  | (w, user_input) :: rest =>
      let '(c, st1, t1) := turn user_input w st in
      match c with
      | Break => (Break, st1, t1)
      | Continue =>
          let '(c2, st2, t2) := loop rest st1 in
          (c2, st2, (t1 ++ t2)%list)
      end
  end.

Definition main (inputs : list (world * string))
  : control * state * list event :=
  let '(_, st0, t0) := speak "TARS here. Awaiting your command."
                         {| os_name := ""; popen := fun _ _ => Returns;
                            os_system := fun _ => Returns;
                            chat := fun _ _ => ChatRaises |} initial in
  let '(c, st, t) := loop inputs st0 in
  (c, st, (t0 ++ t)%list).

(** A world in which every call returns and the model does not answer. *)
Definition quiet : world :=
  {| os_name := "posix"; popen := fun _ _ => Returns;
     os_system := fun _ => Returns; chat := fun _ _ => ChatRaises |}.

(** A world in which [open] is not installed and the model answers. *)
Definition no_open : world :=
  {| os_name := "posix"; popen := fun _ _ => Raises;
     os_system := fun _ => Returns;
     chat := fun _ _ => ReplyObj (Some "I cannot open a browser in space.") |}.

(** A world in which the model answers with an empty [content]. *)
Definition mute : world :=
  {| os_name := "posix"; popen := fun _ _ => Returns;
     os_system := fun _ => Returns;
     chat := fun _ _ => ReplyDict None (Some (MsgDict (Some ""))) |}.

(** The sentences spoken in a trace. *)
Fixpoint spoken (t : list event) : list string :=
  match t with
  | Speak text :: t' => text :: spoken t'
  | _ :: t' => spoken t'
  | [] => []
  end.

(** The processes launched in a trace. *)
Fixpoint launched (t : list event) : list event :=
  match t with
  | Popen argv shell :: t' => Popen argv shell :: launched t'
  | System cmd :: t' => System cmd :: launched t'
  | _ :: t' => launched t'
  | [] => []
  end.

(** The calls of the language model in a trace. *)
Fixpoint chats (t : list event) : list event :=
  match t with
  | Chat p u :: t' => Chat p u :: chats t'
  | _ :: t' => chats t'
  | [] => []
  end.

End Tars.

(* ===================================================================== *)
(** ** The vocabulary of the specification *)

Module Spec.

Import Float Tars.

(** Clamping to the interval from 0 to 1. *)
Definition clamp01 (x : float) : float :=
  if ltb f1_0 x then f1_0 else if ltb x f0_0 then f0_0 else x.

(** The normalization rule for a number [n] read from the utterance:
    with a percent indicator, or when [n] exceeds 1, [n] is divided by
    100; the result is clamped. *)
Definition normalized (n : float) (percent_indicator : bool) : float :=
  clamp01 (if percent_indicator || ltb f1_0 n then div n f100_0 else n).

(** The level of a parameter that is named by its word. *)
Definition level (param : string) (st : state) : option float :=
  if param =? "honesty" then Some (honesty_level st)
  else if param =? "humor" then Some (humor_level st)
  else None.

(** The state after parameter [param] is set to [x]: the other level is
    kept and nothing is pending. *)
Definition store (param : string) (x : float) (st : state) : state :=
  if param =? "honesty" then
    {| honesty_level := x; humor_level := humor_level st;
       pending_param := None |}
  else if param =? "humor" then
    {| honesty_level := honesty_level st; humor_level := x;
       pending_param := None |}
  else st.

(** The outcome of the launch that [execute_command] tries for an
    utterance with one of its two keywords; on a system that is neither
    [posix] nor [nt] nothing is launched. *)
Definition launch_outcome (w : world) (u : string) : outcome :=
  if Str.contains "open browser" u then
    if os_name w =? "posix" then popen w ["open"; "-a"; "Google Chrome"] false
    else if os_name w =? "nt" then popen w ["start"; "chrome"] true
    else Returns
  else
    if os_name w =? "posix" then os_system w "uname -a"
    else if os_name w =? "nt" then os_system w "systeminfo"
    else Returns.

Definition confirmation (u : string) : string :=
  if Str.contains "open browser" u then "Opening browser."
  else "Displaying system information.".

Definition error_line (u : string) : string :=
  if Str.contains "open browser" u then "Error opening browser: "
  else "Error retrieving system info: ".

(** The parameter a question asks about, if the utterance is one. *)
Definition asked (u : string) : option string :=
  if asks_honesty u then Some "honesty"
  else if asks_humor u then Some "humor"
  else None.

(** The utterance is, from its first to its last character, of the form
    "(set|adjust) it to N[%| percent]". *)
Definition is_set_it (u : string) : bool :=
  match Re.fullmatch pattern_it u with Some _ => true | None => false end.

(** The characters such an utterance is made of. *)
Definition set_it_char (c : ascii) : bool :=
  Str.is_space c || Str.is_digit c || Str.contains (String c "") "setadjuio.%prcn".

(** The state with nothing pending. *)
Definition clear_pending (st : state) : state :=
  {| honesty_level := honesty_level st; humor_level := humor_level st;
     pending_param := None |}.

(** Both levels lie between 0 and 1. *)
Definition bounded (st : state) : Prop :=
  in_unit (honesty_level st) = true /\ in_unit (humor_level st) = true.

End Spec.

(* ===================================================================== *)
(** ** [listen] and one iteration of the loop *)

Module Session.

Import Float Tars.

(** What the recognizer does with the audio of one capture: it returns
    a text, or raises [UnknownValueError] or [RequestError].  Other
    exceptions, and those of the microphone, are not caught by [listen]
    and are not part of the model. *)
Inductive recognition : Type :=
| Heard (text : string)
| UnknownValue
| RequestFailed.

(** [str.lower] on one character of ASCII. *)
Definition lower_char (c : ascii) : ascii :=
  let n := nat_of_ascii c in
  if (65 <=? n)%nat && (n <=? 90)%nat then ascii_of_nat (n + 32) else c.

(** [text.lower()], on ASCII. *)
Fixpoint lower (s : string) : string :=
  match s with
  | EmptyString => EmptyString
  | String c s' => String (lower_char c) (lower s')
  end.

Definition listen (r : recognition) : M string :=
  print "Listening..." ;;
  match r with
  | Heard text =>
      print ("User said: " ++ text) ;;
      ret (lower text)
  | UnknownValue =>
      print "Sorry, I did not understand that." ;;
      ret ""
  | RequestFailed =>
      print "Request error: " ;;
      ret ""
  end.

(** One pass through the [while] loop of [main]. *)
Definition iteration (r : recognition) : M control :=
  user_input <- listen r ;;
  turn user_input.

End Session.

(* ===================================================================== *)
(** ** Words for traces, texts and states *)

Module Shape.

Import Float Tars.

(** The lines printed in a trace. *)
Fixpoint printed (t : list event) : list string :=
  match t with
  | Print line :: t' => line :: printed t'
  | _ :: t' => printed t'
  | [] => []
  end.

(** The four commands [execute_command] can launch. *)
Definition fixed_launches : list event :=
  [Popen ["open"; "-a"; "Google Chrome"] false;
   Popen ["start"; "chrome"] true;
   System "uname -a";
   System "systeminfo"].

(** The console lines of a run in which [adjust_personality] meets no
    exception. *)
Definition expected_lines : list string :=
  ["Error opening browser: "; "Error retrieving system info: ";
   "LLM error: "; "Raw LLM response:"].

Definition expected_event (e : event) : bool :=
  match e with
  | Print line => existsb (String.eqb line) expected_lines
  | _ => true
  end.

(** [pending_param] is [None], ["honesty"] or ["humor"]. *)
Definition valid_pending (st : state) : Prop :=
  pending_param st = None \/ pending_param st = Some "honesty" \/
  pending_param st = Some "humor".

(** A continuation of the matcher that never fails. *)
Definition total {A : Type} (k : @Re.cont A) : Prop :=
  forall w s c, k w s c <> None.

(** The sentence that answers a question about parameter [p]. *)
Definition answer (p : string) (st : state) : string :=
  "My " ++ p ++ " level is "
  ++ percent (if p =? "honesty" then honesty_level st else humor_level st)
  ++ " percent.".

(** The state in which parameter [p] is pending. *)
Definition with_pending (p : string) (st : state) : state :=
  {| honesty_level := honesty_level st; humor_level := humor_level st;
     pending_param := Some p |}.

(** Some character of the text is in the class. *)
Fixpoint any (p : ascii -> bool) (s : string) : bool :=
  match s with
  | EmptyString => false
  | String c s' => p c || any p s'
  end.

(** The longest run of the class at the start of a text, and the rest. *)
Fixpoint take_while (p : ascii -> bool) (s : string) : string * string :=
  match s with
  | String c s' =>
      if p c then let '(d, r) := take_while p s' in (String c d, r)
      else (EmptyString, s)
  | EmptyString => (EmptyString, EmptyString)
  end.

(** The text starts with a digit. *)
Definition starts_with_digit (s : string) : bool :=
  match s with
  | String c _ => Str.is_digit c
  | EmptyString => false
  end.

(** The text starts with a point and a digit. *)
Definition starts_with_fraction (s : string) : bool :=
  match s with
  | String c s' => (c =? ".")%char && starts_with_digit s'
  | EmptyString => false
  end.

(** The longest numeral [\d+(?:\.\d+)?] at the start of a text, and the
    rest. *)
Definition take_numeral (s : string) : option (string * string) :=
  match s with
  | String a s' =>
      if Str.is_digit a then
        let '(d, r) := take_while Str.is_digit s' in
        match r with
        | String p (String b r') =>
            if (p =? ".")%char && Str.is_digit b then
              let '(e, r'') := take_while Str.is_digit r' in
              Some (String a d ++ "." ++ String b e, r'')
            else Some (String a d, r)
        | _ => Some (String a d, r)
        end
      else None
  | EmptyString => None
  end.

(** No space of the text comes right after a terminator; [after] tells
    whether a terminator stands before the text. *)
Fixpoint boundary_free (after : bool) (s : string) : bool :=
  match s with
  | EmptyString => true
  | String c s' =>
      negb (after && Str.is_space c) && boundary_free (Str.is_terminator c) s'
  end.

(** The text does not start with a space. *)
Definition no_leading_space (s : string) : bool :=
  match s with
  | String c _ => negb (Str.is_space c)
  | EmptyString => true
  end.

End Shape.

(* ===================================================================== *)
(** ** The matcher finds matches *)

Module ReFacts.

Import Re.

Lemma strip_prefix_app l s s' :
  strip_prefix l s = Some s' -> s = l ++ s'.
Proof.
  revert s; induction l as [|a l IH]; intros [|b s]; simpl; try congruence.
  destruct (Ascii.eqb_spec a b) as [->|]; [|discriminate].
  intros H; now rewrite (IH _ H).
Qed.

Lemma strip_prefix_complete l s' : strip_prefix l (l ++ s') = Some s'.
Proof.
  induction l as [|a l IH]; simpl; [reflexivity|].
  now rewrite Ascii.eqb_refl.
Qed.

Section Sound.
Context {A : Type}.
Implicit Types k : @cont A.

Lemma star_sound cls s c k res :
  star cls s c k = Some res ->
  exists w s', s = w ++ s' /\ Str.all cls w = true /\ k w s' c = Some res.
Proof.
  revert k; induction s as [|a s IH]; intros k; simpl.
  - intros H; now exists EmptyString, EmptyString.
  - destruct (cls a) eqn:Ha.
    + destruct (star cls s c (fun w => k (String a w))) eqn:Hs; simpl.
      * intros [= <-]. apply IH in Hs as (w & s' & -> & Hw & Hk).
        exists (String a w), s'; simpl; rewrite Ha, Hw; auto.
      * intros H; now exists EmptyString, (String a s).
    + intros H; now exists EmptyString, (String a s).
Qed.

Lemma run_sound r : forall s c k res,
  run r s c k = Some res ->
  exists w s' c', s = w ++ s' /\ matches r w c c' /\ k w s' c' = Some res.
Proof.
  induction r as [l|cls|cls|r1 IH1 r2 IH2|r1 IH1 r2 IH2|r IH|n r IH];
    intros s c k res; simpl.
  - destruct (strip_prefix l s) as [s'|] eqn:Hp; [|discriminate].
    intros H; exists l, s', c; split; [now apply strip_prefix_app|].
    split; [constructor | assumption].
  - intros H; apply star_sound in H as (w & s' & -> & Hw & Hk).
    exists w, s', c; repeat split; [now constructor | assumption].
  - destruct s as [|a s]; [discriminate|].
    destruct (cls a) eqn:Ha; [|discriminate].
    intros H; apply star_sound in H as (w & s' & -> & Hw & Hk).
    exists (String a w), s', c; repeat split; [now constructor | assumption].
  - intros H; apply IH1 in H as (w1 & s1 & c1 & -> & H1 & H).
    apply IH2 in H as (w2 & s2 & c2 & -> & H2 & H).
    exists (w1 ++ w2), s2, c2; repeat split.
    + clear; induction w1; simpl; congruence.
    + econstructor; eassumption.
    + assumption.
  - destruct (run r1 s c k) eqn:H1; simpl.
    + intros [= <-]; apply IH1 in H1 as (w & s' & c' & -> & Hm & Hk).
      exists w, s', c'; repeat split; [now apply m_alt_l | assumption].
    + intros H; apply IH2 in H as (w & s' & c' & -> & Hm & Hk).
      exists w, s', c'; repeat split; [now apply m_alt_r | assumption].
  - destruct (run r s c k) eqn:H1; simpl.
    + intros [= <-]; apply IH in H1 as (w & s' & c' & -> & Hm & Hk).
      exists w, s', c'; repeat split; [now apply m_opt_some | assumption].
    + intros H; exists EmptyString, s, c; repeat split;
        [apply m_opt_none | assumption].
  - intros H; apply IH in H as (w & s' & c' & -> & Hm & Hk).
    exists w, s', ((n, w) :: c'); repeat split; [now constructor | assumption].
Qed.
End Sound.

Section Monotone.
Context {A B : Type}.
Lemma or_else_some (x y : option B) :
  x <> None \/ y <> None -> or_else x y <> None.
Proof. destruct x; simpl; [discriminate | now intros [?|?]]. Qed.

Lemma or_else_inv (x y : option A) :
  or_else x y <> None -> x <> None \/ y <> None.
Proof. destruct x; simpl; [left; discriminate | now right]. Qed.

Lemma star_mono cls s : forall c (k : @cont A) (k' : @cont B),
  accepts_more k k' -> star cls s c k <> None -> star cls s c k' <> None.
Proof.
  induction s as [|a s IH]; intros c k k' Hk; simpl; [apply Hk|].
  destruct (cls a); [|apply Hk].
  intros H; apply or_else_inv in H; apply or_else_some.
  destruct H as [H|H]; [left | right; now apply Hk].
  revert H; apply IH. intros w s' c'; apply Hk.
Qed.

Lemma run_mono r : forall s c (k : @cont A) (k' : @cont B),
  accepts_more k k' -> run r s c k <> None -> run r s c k' <> None.
Proof.
  induction r as [l|cls|cls|r1 IH1 r2 IH2|r1 IH1 r2 IH2|r IH|n r IH];
    intros s c k k' Hk; simpl.
  - destruct (strip_prefix l s); [apply Hk | auto].
  - now apply star_mono.
  - destruct s as [|a s]; [auto|]. destruct (cls a); [|auto].
    apply star_mono. intros w s' c'; apply Hk.
  - apply IH1. intros w1 s1 c1. apply IH2. intros w2 s2 c2; apply Hk.
  - intros H; apply or_else_inv in H; apply or_else_some.
    destruct H as [H|H]; [left; revert H; now apply IH1
                         | right; revert H; now apply IH2].
  - intros H; apply or_else_inv in H; apply or_else_some.
    destruct H as [H|H]; [left; revert H; now apply IH | right; now apply Hk].
  - apply IH. intros w s' c'; apply Hk.
Qed.
End Monotone.

(** A pattern that matches the whole text is found by [search]. *)
Lemma fullmatch_search r s :
  fullmatch r s <> None -> search r s <> None.
Proof.
  intros H.
  assert (Hm : match_here r s <> None).
  { revert H; apply run_mono. intros w s' c _; discriminate. }
  destruct s; simpl; destruct (match_here r _); congruence.
Qed.

Lemma match_here_sound r s m :
  match_here r s = Some m -> exists w s', s = w ++ s' /\ matches r w [] m.
Proof.
  intros H; apply run_sound in H as (w & s' & c' & -> & Hm & [= <-]).
  now exists w, s'.
Qed.

Lemma search_sound r s m :
  search r s = Some m ->
  exists pre w post, s = pre ++ w ++ post /\ matches r w [] m.
Proof.
  induction s as [|a s IH]; simpl.
  - destruct (match_here r "") eqn:H; [|discriminate].
    intros [= <-]; apply match_here_sound in H as (w & s' & E & Hm).
    now exists "", w, s'.
  - destruct (match_here r (String a s)) eqn:H.
    + intros [= <-]; apply match_here_sound in H as (w & s' & E & Hm).
      now exists "", w, s'.
    + intros Hs; apply IH in Hs as (pre & w & post & -> & Hm).
      now exists (String a pre), w, post.
Qed.

Lemma fullmatch_sound r s m : fullmatch r s = Some m -> matches r s [] m.
Proof.
  intros H; apply run_sound in H as (w & s' & c' & -> & Hm & Hk).
  destruct s'; simpl in Hk; [|discriminate].
  injection Hk as <-.
  replace (w ++ "") with w; [assumption|].
  clear; induction w; simpl; congruence.
Qed.

End ReFacts.

(* ===================================================================== *)
(** ** Numerals and their floats *)

Module FloatFacts.

Import Float.

Lemma digit_not_point a : Str.is_digit a = true -> (a =? ".")%char = false.
Proof.
  intros H; destruct (Ascii.eqb_spec a "."%char) as [->|]; [discriminate H|reflexivity].
Qed.

Lemma split_point_digits d rest :
  Str.all Str.is_digit d = true ->
  split_point (d ++ rest) =
  let '(i, f) := split_point rest in (d ++ i, f).
Proof.
  induction d as [|a d IH]; simpl.
  - now destruct (split_point rest).
  - intros H; apply andb_prop in H as [Ha Hd].
    rewrite (digit_not_point _ Ha), (IH Hd).
    now destruct (split_point rest).
Qed.

Lemma all_app p u v :
  Str.all p u = true -> Str.all p v = true -> Str.all p (u ++ v) = true.
Proof.
  induction u as [|a u IH]; simpl; [auto|].
  intros H Hv; apply andb_prop in H as [-> Hu]; simpl; auto.
Qed.

Lemma digits_total d : forall acc,
  Str.all Str.is_digit d = true -> exists n, digits acc d = Some n.
Proof.
  induction d as [|a d IH]; intros acc; simpl; [eauto|].
  intros H; apply andb_prop in H as [-> Hd]; auto.
Qed.

Lemma app_empty_r (s : string) : s ++ "" = s.
Proof. induction s; simpl; congruence. Qed.

Lemma of_string_split s i f :
  split_point s = (i, f) ->
  let f' := match f with Some f => f | None => "" end in
  Str.truthy (i ++ f') = true ->
  Str.all Str.is_digit (i ++ f') = true ->
  exists x, of_string s = Some x.
Proof.
  intros E f' Ht Hd; unfold of_string; rewrite E; fold f'; rewrite Ht.
  destruct (digits_total _ 0%N Hd) as [n ->]; eauto.
Qed.

(** [float] does not raise on a numeral. *)
Lemma of_string_numeral v : numeral v -> exists x, of_string v = Some x.
Proof.
  intros [a d Ha Hd | a d b e Ha Hd Hb He].
  - apply (of_string_split _ (String a d) None).
    + rewrite <- (app_empty_r (String a d)) at 1.
      rewrite split_point_digits by (simpl; now rewrite Ha, Hd).
      simpl; now rewrite app_empty_r.
    + reflexivity.
    + rewrite app_empty_r; simpl; now rewrite Ha, Hd.
  - apply (of_string_split _ (String a d) (Some (String b e))).
    + rewrite split_point_digits by (simpl; now rewrite Ha, Hd).
      simpl; now rewrite app_empty_r.
    + reflexivity.
    + apply all_app; simpl; [now rewrite Ha, Hd | now rewrite Hb, He].
Qed.

(** Rounding a quotient of positive integers gives no negative number
    and no NaN. *)
Lemma shr_1_nonneg mrs : (0 <= shr_m mrs -> 0 <= shr_m (shr_1 mrs))%Z.
Proof.
  destruct mrs as [m r s]; simpl.
  destruct m as [|[p|p|]|[p|p|]]; simpl; lia.
Qed.

Lemma iter_shr_1_nonneg p : forall mrs,
  (0 <= shr_m mrs -> 0 <= shr_m (iter_pos shr_1 p mrs))%Z.
Proof.
  induction p as [p IH|p IH|]; intros mrs H; simpl.
  - now apply IH, IH, shr_1_nonneg.
  - now apply IH, IH.
  - now apply shr_1_nonneg.
Qed.

Lemma shr_fexp_nonneg m e l :
  (0 <= m -> 0 <= shr_m (fst (shr_fexp prec emax m e l)))%Z.
Proof.
  intros H; unfold shr_fexp, shr.
  assert (H0 : (0 <= shr_m (shr_record_of_loc m l))%Z)
    by (destruct l as [|[| |]]; exact H).
  destruct (fexp prec emax (Zdigits2 m + e) - e)%Z; simpl; auto.
  now apply iter_shr_1_nonneg.
Qed.

Lemma round_nearest_even_nonneg m l : (0 <= m -> 0 <= round_nearest_even m l)%Z.
Proof.
  destruct l as [|[| |]]; simpl; try lia.
  destruct (Z.even m); lia.
Qed.

Lemma binary_round_aux_nonneg m e l :
  (0 <= m)%Z -> is_nonneg (binary_round_aux prec emax false m e l) = true.
Proof.
  intros H; unfold binary_round_aux.
  pose proof (shr_fexp_nonneg m e l H) as H1.
  destruct (shr_fexp prec emax m e l) as [mrs1 e1]; simpl in H1.
  pose proof (shr_fexp_nonneg _ e1 loc_Exact
                (round_nearest_even_nonneg _ (loc_of_shr_record mrs1) H1)) as H2.
  destruct (shr_fexp prec emax _ e1 loc_Exact) as [mrs2 e2]; simpl in H2.
  destruct (shr_m mrs2); [reflexivity| |lia].
  now destruct (e2 <=? emax - prec)%Z.
Qed.

Lemma div_core_nonneg m1 e1 m2 e2 :
  (0 <= fst (fst (SFdiv_core_binary prec emax (Zpos m1) e1 (Zpos m2) e2)))%Z.
Proof.
  unfold SFdiv_core_binary.
  set (s := (e1 - e2 - _)%Z).
  set (m' := match s with Z0 => Zpos m1 | Zpos _ => Z.shiftl (Zpos m1) s | Zneg _ => 0%Z end).
  assert (H : (0 <= m')%Z).
  { subst m'; destruct s; try lia. apply Z.shiftl_nonneg; lia. }
  pose proof (Z.div_pos m' (Zpos m2) H ltac:(lia)) as Hq.
  unfold Z.div in Hq. now destruct (Z.div_eucl m' (Zpos m2)).
Qed.

Lemma div_nonneg x y :
  is_nonneg x = true -> y = f100_0 -> is_nonneg (div x y) = true.
Proof.
  intros Hx ->. change f100_0 with (S754_finite false 7036874417766400 (-46)).
  destruct x as [[|]|[|]| |[|] m e]; try discriminate Hx; try reflexivity.
  unfold div, SFdiv.
  pose proof (div_core_nonneg m e 7036874417766400 (-46)) as H.
  destruct (SFdiv_core_binary _ _ _ _ _ _) as [[mz ez] lz]; simpl in H.
  now apply binary_round_aux_nonneg.
Qed.

Lemma of_decimal_nonneg n k : is_nonneg (of_decimal n k) = true.
Proof.
  destruct n as [|p]; [reflexivity|].
  unfold of_decimal, div, SFdiv.
  pose proof (div_core_nonneg p 0 (pow10 k) 0) as H.
  destruct (SFdiv_core_binary _ _ _ _ _ _) as [[mz ez] lz]; simpl in H.
  now apply binary_round_aux_nonneg.
Qed.

Lemma of_string_nonneg s x : of_string s = Some x -> is_nonneg x = true.
Proof.
  unfold of_string. destruct (split_point s) as [i f].
  destruct (Str.truthy _); [|discriminate].
  destruct (digits _ _); [|discriminate].
  intros [= <-]; apply of_decimal_nonneg.
Qed.

Lemma compare_antisym x y :
  SFcompare y x = option_map CompOpp (SFcompare x y).
Proof.
  destruct x as [s|s| |s m e], y as [s'|s'| |s' m' e']; simpl;
    try destruct s; try destruct s'; try reflexivity;
    rewrite (Z.compare_antisym e e');
    destruct (e ?= e')%Z; simpl; try reflexivity;
    now rewrite (Pos.compare_cont_antisym m m' Eq).
Qed.

Lemma ltb_leb x y : ltb x y = true -> leb x y = true.
Proof.
  unfold ltb, leb, SFltb, SFleb.
  now destruct (SFcompare x y) as [[| |]|].
Qed.

(** Of two floats that compare, one is below the other. *)
Lemma not_ltb_leb x y z :
  y <> S754_nan -> ltb z x = true -> ltb y x = false -> leb x y = true.
Proof.
  unfold ltb, leb, SFltb, SFleb; rewrite (compare_antisym y x).
  destruct (SFcompare y x) as [[| |]|] eqn:E; simpl; try easy.
  intros Hy Hz _; exfalso.
  destruct x; [| |destruct z; discriminate Hz|];
    (destruct y; [| |now apply Hy|]; discriminate E).
Qed.

(** [max(0.0, min(v, 1.0))] lies between 0 and 1, whatever [v] is. *)
Lemma clamp_in_unit v : in_unit (max f0_0 (min v f1_0)) = true.
Proof.
  unfold max, min.
  destruct (ltb f1_0 v) eqn:H1; [reflexivity|].
  destruct (ltb f0_0 v) eqn:H0; [|reflexivity].
  unfold in_unit; rewrite (ltb_leb _ _ H0); simpl.
  now apply (not_ltb_leb _ _ f0_0).
Qed.

(** On a number that is not negative, [max(0.0, min(x, 1.0))] clamps. *)
Lemma clamp_spec x :
  is_nonneg x = true -> max f0_0 (min x f1_0) = Spec.clamp01 x.
Proof.
  unfold max, min, Spec.clamp01; intros Hx.
  destruct (ltb f1_0 x) eqn:H1; [reflexivity|].
  destruct x as [[|]|[|]| |[|] m e]; try discriminate Hx; reflexivity.
Qed.

(** [nearest_even] is a nearest integer: twice its distance to
    [m / 2^p] is at most 1. *)
Lemma nearest_even_is_nearest m p :
  let d := Z.pow_pos 2 p in
  (Z.abs (2 * (nearest_even m (Zneg p) * d - Zpos m)) <= d)%Z.
Proof.
  intros d; unfold nearest_even; fold d.
  assert (Hd : (0 < d)%Z) by (subst d; rewrite Z.pow_pos_fold; lia).
  pose proof (Z.div_mod (Zpos m) d ltac:(lia)) as Hdm.
  pose proof (Z.mod_pos_bound (Zpos m) d Hd) as Hr.
  set (q := (Zpos m / d)%Z) in *; set (r := (Zpos m mod d)%Z) in *.
  destruct (2 * r ?= d)%Z eqn:C.
  - apply Z.compare_eq in C. destruct (Z.even q); nia.
  - rewrite Z.compare_lt_iff in C; nia.
  - rewrite Z.compare_gt_iff in C; nia.
Qed.

End FloatFacts.

(* ===================================================================== *)
(** ** What the two patterns capture *)

Module PatternFacts.

Import Re Float Tars Spec FloatFacts.

Ltac inv_matches :=
  repeat match goal with
  | H : matches (Lit _) _ _ _ |- _ => inversion H; subst; clear H
  | H : matches (Star _) _ _ _ |- _ => inversion H; subst; clear H
  | H : matches (Plus _) _ _ _ |- _ => inversion H; subst; clear H
  | H : matches (Seq _ _) _ _ _ |- _ => inversion H; subst; clear H
  | H : matches (Alt _ _) _ _ _ |- _ => inversion H; subst; clear H
  | H : matches (Opt _) _ _ _ |- _ => inversion H; subst; clear H
  | H : matches (Grp _ _) _ _ _ |- _ => inversion H; subst; clear H
  end.

Lemma numeral_matches w c c' :
  matches (Seq (Plus Str.is_digit) (Opt (Seq (Lit ".") (Plus Str.is_digit))))
          w c c' ->
  numeral w /\ c' = c.
Proof.
  intros H; inv_matches.
  - split; [|reflexivity]. now apply num_frac.
  - split; [|reflexivity]. rewrite app_empty_r. now constructor.
Qed.

Lemma indicator_matches w c c' n :
  matches (Opt (Grp n (Alt (Seq (Star Str.is_space) (Lit "%")) (Lit " percent"))))
          w c c' ->
  (c' = c /\ w = "") \/
  (exists p, c' = (n, p) :: c /\ w = p /\ Str.truthy p = true).
Proof.
  intros H; inv_matches.
  - right; eexists; repeat split. now destruct w1.
  - right; eexists; repeat split.
  - now left.
Qed.

(** A match of [pattern_full] has [honesty] or [humor] in group 2, a
    numeral in group 4, and in group 5 nothing or a text that is not
    empty. *)
Lemma pattern_full_groups w m :
  matches pattern_full w [] m ->
  (group m 2 = Some "honesty" \/ group m 2 = Some "humor") /\
  (exists v, group m 4 = Some v /\ numeral v) /\
  (group m 5 = None \/ exists p, group m 5 = Some p /\ Str.truthy p = true).
Proof.
  unfold pattern_full; cbn [cat]. intros H.
  repeat match goal with
  | H : matches (Seq _ (Seq _ _)) _ _ _ |- _ => inversion H; subst; clear H
  end.
  match goal with
  | H : matches (Seq (Grp 4 _) _) _ _ _ |- _ => inversion H; subst; clear H
  end.
  repeat match goal with
  | H : matches (Grp 4 _) _ _ _ |- _ => inversion H; subst; clear H
  | H : matches (Seq (Plus Str.is_digit) _) _ _ _ |- _ =>
      apply numeral_matches in H as [? ->]
  | H : matches (Opt (Grp 5 _)) _ _ _ |- _ =>
      apply indicator_matches in H as [[-> ->]|(p & -> & -> & ?)]
  end; inv_matches; cbn [group Nat.eqb];
    (split; [auto | split; eauto]).
Qed.

(** A match of [pattern_it] has a numeral in group 2 and in group 3
    nothing or a text that is not empty. *)
Lemma pattern_it_groups w m :
  matches pattern_it w [] m ->
  (exists v, group m 2 = Some v /\ numeral v) /\
  (group m 3 = None \/ exists p, group m 3 = Some p /\ Str.truthy p = true).
Proof.
  unfold pattern_it; cbn [cat]. intros H.
  repeat match goal with
  | H : matches (Seq _ (Seq _ _)) _ _ _ |- _ => inversion H; subst; clear H
  end.
  match goal with
  | H : matches (Seq (Grp 2 _) _) _ _ _ |- _ => inversion H; subst; clear H
  end.
  repeat match goal with
  | H : matches (Grp 2 _) _ _ _ |- _ => inversion H; subst; clear H
  | H : matches (Seq (Plus Str.is_digit) _) _ _ _ |- _ =>
      apply numeral_matches in H as [? ->]
  | H : matches (Opt (Grp 3 _)) _ _ _ |- _ =>
      apply indicator_matches in H as [[-> ->]|(p & -> & -> & ?)]
  end; inv_matches; cbn [group Nat.eqb]; (split; eauto).
Qed.

(** *** Utterances that are a "set it to N" command and nothing else *)

Lemma all_app_eq p a b : Str.all p (a ++ b) = Str.all p a && Str.all p b.
Proof.
  induction a as [|c a IH]; simpl; [reflexivity|].
  now rewrite IH, andb_assoc.
Qed.

Lemma all_impl (p q : ascii -> bool) s :
  (forall c, p c = true -> q c = true) ->
  Str.all p s = true -> Str.all q s = true.
Proof.
  intros Hpq; induction s as [|c s IH]; simpl; [reflexivity|].
  intros H; apply andb_prop in H as [Hc Hs].
  now rewrite (Hpq c Hc), IH.
Qed.

Lemma prefix_all p sub : forall s,
  String.prefix sub s = true -> Str.all p s = true -> Str.all p sub = true.
Proof.
  induction sub as [|a sub IH]; intros [|b s]; simpl; try easy.
  destruct (Ascii.ascii_dec a b) as [->|]; [|discriminate].
  intros Hp H; apply andb_prop in H as [-> Hs]; simpl; eauto.
Qed.

(** A text over an alphabet does not contain a word with a letter
    outside of it. *)
Lemma not_contains p sub s :
  Str.all p s = true -> Str.all p sub = false -> Str.contains sub s = false.
Proof.
  intros Hs Hsub; induction s as [|c s IH]; cbn [Str.contains].
  - destruct (String.prefix sub "") eqn:E; [|reflexivity].
    now rewrite (prefix_all p sub "" E Hs) in Hsub.
  - destruct (String.prefix sub (String c s)) eqn:E.
    + now rewrite (prefix_all p sub _ E Hs) in Hsub.
    + simpl in Hs; apply andb_prop in Hs as [_ Hs]; auto.
Qed.

Lemma space_set_it_char c : Str.is_space c = true -> set_it_char c = true.
Proof. unfold set_it_char; now intros ->. Qed.

Lemma digit_set_it_char c : Str.is_digit c = true -> set_it_char c = true.
Proof. unfold set_it_char; intros ->; now rewrite orb_true_r. Qed.

Lemma numeral_set_it v : numeral v -> Str.all set_it_char v = true.
Proof.
  intros [a d Ha Hd | a d b e Ha Hd Hb He].
  - simpl; rewrite (digit_set_it_char a Ha); simpl.
    now apply (all_impl Str.is_digit), Hd; apply digit_set_it_char.
  - rewrite all_app_eq; simpl.
    rewrite (digit_set_it_char a Ha), (digit_set_it_char b Hb); simpl.
    rewrite (all_impl Str.is_digit set_it_char d digit_set_it_char Hd).
    now rewrite (all_impl Str.is_digit set_it_char e digit_set_it_char He).
Qed.

Lemma pattern_it_alphabet w m :
  matches pattern_it w [] m -> Str.all set_it_char w = true.
Proof.
  unfold pattern_it; cbn [cat]. intros H.
  repeat match goal with
  | H : matches (Seq _ (Seq _ _)) _ _ _ |- _ => inversion H; subst; clear H
  end.
  match goal with
  | H : matches (Seq (Grp 2 _) _) _ _ _ |- _ => inversion H; subst; clear H
  end.
  repeat match goal with
  | H : matches (Grp 2 _) _ _ _ |- _ => inversion H; subst; clear H
  | H : matches (Seq (Plus Str.is_digit) _) _ _ _ |- _ =>
      apply numeral_matches in H as [?%numeral_set_it ->]
  end; inv_matches;
  repeat match goal with
  | H : Str.is_space _ = true |- _ => apply space_set_it_char in H
  | H : Str.all Str.is_space _ = true |- _ =>
      apply (all_impl _ set_it_char _ space_set_it_char) in H
  end;
  rewrite ?all_app_eq; cbn [Str.all];
  repeat match goal with
  | H : _ = true |- _ => rewrite H; clear H
  end; reflexivity.
Qed.

Lemma pattern_full_alphabet w m :
  matches pattern_full w [] m -> Str.all set_it_char w = false.
Proof.
  unfold pattern_full; cbn [cat]. intros H.
  repeat match goal with
  | H : matches (Seq _ (Seq _ _)) _ _ _ |- _ => inversion H; subst; clear H
  end.
  repeat match goal with
  | H : matches (Grp 2 _) _ _ _ |- _ => inversion H; subst; clear H
  | H : matches (Alt (Lit "honesty") _) _ _ _ |- _ => inversion H; subst; clear H
  | H : matches (Lit "honesty") _ _ _ |- _ => inversion H; subst; clear H
  | H : matches (Lit "humor") _ _ _ |- _ => inversion H; subst; clear H
  end;
  rewrite !all_app_eq;
  match goal with
  | |- context [Str.all set_it_char "honesty"] =>
      change (Str.all set_it_char "honesty") with false
  | |- context [Str.all set_it_char "humor"] =>
      change (Str.all set_it_char "humor") with false
  end;
  rewrite ?andb_false_r; reflexivity.
Qed.

(** A "set it to N" command is none of the other things the loop
    looks for, and [pattern_it] is found in it. *)
Lemma is_set_it_only u :
  is_set_it u = true ->
  asks_honesty u = false /\ asks_humor u = false /\
  Re.search pattern_full u = None /\
  (exists m, Re.search pattern_it u = Some m) /\
  Str.contains_any exit_words u = false /\
  Str.contains "open browser" u = false /\
  Str.contains "system info" u = false.
Proof.
  unfold is_set_it; intros H.
  destruct (fullmatch pattern_it u) as [m|] eqn:Hf; [clear H|discriminate].
  pose proof (pattern_it_alphabet u m (ReFacts.fullmatch_sound _ _ _ Hf)) as Ha.
  assert (Hn : forall sub, Str.all set_it_char sub = false ->
                           Str.contains sub u = false)
    by (intros sub; now apply not_contains).
  repeat split.
  - unfold asks_honesty; now rewrite (Hn "honesty").
  - unfold asks_humor; now rewrite (Hn "humor").
  - destruct (Re.search pattern_full u) as [m'|] eqn:Hs; [|reflexivity].
    apply ReFacts.search_sound in Hs as (pre & w & post & -> & Hm).
    apply pattern_full_alphabet in Hm.
    rewrite !all_app_eq, Hm, andb_false_r in Ha; discriminate.
  - assert (Hs : Re.search pattern_it u <> None)
      by (apply ReFacts.fullmatch_search; congruence).
    destruct (Re.search pattern_it u); [eauto | congruence].
  - unfold Str.contains_any, exit_words; simpl.
    now rewrite (Hn "exit"), (Hn "shut down"), (Hn "goodbye").
  - now apply Hn.
  - now apply Hn.
Qed.

End PatternFacts.

(* ===================================================================== *)
(** ** [adjust_personality] *)

Module AdjustFacts.

Import Re Float Tars Spec ReFacts FloatFacts PatternFacts.

(** The number stored for a numeral [v] is the normalized [float(v)]. *)
Lemma normalize_numeral v pct :
  numeral v ->
  exists n, of_string v = Some n /\
            normalize (Some v) pct = Some (normalized n (Str.truthy_opt pct)).
Proof.
  intros Hv; destruct (of_string_numeral v Hv) as [n Hn].
  exists n; split; [assumption|].
  unfold normalize, normalized; rewrite Hn.
  change (of_int 1) with f1_0.
  pose proof (of_string_nonneg _ _ Hn) as Hnn.
  rewrite clamp_spec; [reflexivity|].
  destruct (_ || _); [now apply div_nonneg | assumption].
Qed.

(** What [adjust_personality] does when [pattern_full] is found. *)
Lemma adjust_named u m w st :
  Re.search pattern_full u = Some m ->
  exists param v n,
    group m 2 = Some param /\ (param = "honesty" \/ param = "humor") /\
    group m 4 = Some v /\ of_string v = Some n /\
    let x := normalized n (Str.truthy_opt (group m 5)) in
    adjust_personality u w st = (Some (adjusted param x), store param x st, []).
Proof.
  intros Hs. destruct (search_sound _ _ _ Hs) as (pre & mw & post & _ & Hm).
  destruct (pattern_full_groups _ _ Hm) as (Hp & (v & Hv & Hnum) & _).
  destruct (normalize_numeral v (group m 5) Hnum) as (n & Hn & Hnorm).
  unfold adjust_personality; rewrite Hs, Hv, Hnorm.
  destruct Hp as [Hp|Hp]; rewrite Hp;
    [exists "honesty" | exists "humor"]; exists v, n; repeat split; auto.
Qed.

(** What the second half does: nothing without a match of
    [pattern_it] or without a pending parameter; otherwise the pending
    parameter gets the normalized number. *)
Lemma adjust_pending_none u w st :
  Re.search pattern_it u = None \/ Str.truthy_opt (pending_param st) = false ->
  adjust_pending u w st = (None, st, []).
Proof.
  unfold adjust_pending, bind, get; simpl.
  intros [-> | ->]; [reflexivity|].
  now destruct (Re.search pattern_it u).
Qed.

Lemma adjust_pending_some u m w st param :
  Re.search pattern_it u = Some m ->
  pending_param st = Some param ->
  param = "honesty" \/ param = "humor" ->
  exists v n,
    group m 2 = Some v /\ of_string v = Some n /\
    let x := normalized n (Str.truthy_opt (group m 3)) in
    adjust_pending u w st = (Some (adjusted param x), store param x st, []).
Proof.
  intros Hs Hp Hor.
  destruct (search_sound _ _ _ Hs) as (pre & mw & post & _ & Hm).
  destruct (pattern_it_groups _ _ Hm) as ((v & Hv & Hnum) & _).
  destruct (normalize_numeral v (group m 3) Hnum) as (n & Hn & Hnorm).
  exists v, n; repeat split; try assumption.
  unfold adjust_pending, bind, get; simpl.
  rewrite Hs, Hp, Hv, Hnorm.
  now destruct Hor as [-> | ->].
Qed.

Lemma normalized_in_unit n pct :
  is_nonneg n = true -> in_unit (normalized n pct) = true.
Proof.
  intros Hn; unfold normalized.
  rewrite <- clamp_spec; [apply clamp_in_unit|].
  destruct (_ || _); [now apply div_nonneg | assumption].
Qed.

(** Every run of [adjust_personality] is of one of two kinds: it
    returns [None] and keeps both levels, or it returns the confirmation
    for one parameter and stores a number between 0 and 1 in it. *)
Lemma adjust_personality_cases u w st :
  let '(r, st', t) := adjust_personality u w st in
  (r = None /\ (st' = st \/ st' = clear_pending st) /\
   spoken t = [] /\ launched t = [] /\ chats t = []) \/
  (exists param x,
      (param = "honesty" \/ param = "humor") /\ in_unit x = true /\
      r = Some (adjusted param x) /\ st' = store param x st /\ t = []).
Proof.
  destruct (Re.search pattern_full u) as [m|] eqn:Hs.
  - destruct (adjust_named u m w st Hs) as (param & v & n & _ & Hor & _ & Hn & E).
    cbv zeta in E; rewrite E; right.
    exists param, (normalized n (Str.truthy_opt (group m 5))).
    repeat split; try assumption.
    apply normalized_in_unit, (of_string_nonneg _ _ Hn).
  - unfold adjust_personality; rewrite Hs.
    destruct (Re.search pattern_it u) as [m|] eqn:Hs2;
      [|rewrite adjust_pending_none; auto 10].
    destruct (Str.truthy_opt (pending_param st)) eqn:Ht;
      [|rewrite adjust_pending_none; auto 10].
    destruct (pending_param st) as [p|] eqn:Hp; [|discriminate Ht].
    destruct (String.eqb_spec p "honesty") as [E1|N1];
      [|destruct (String.eqb_spec p "humor") as [E2|N2]].
    + destruct (adjust_pending_some u m w st p Hs2 Hp (or_introl E1))
        as (v & n & _ & Hn & E).
      cbv zeta in E; rewrite E; right.
      exists p, (normalized n (Str.truthy_opt (group m 3))).
      repeat split; auto.
      apply normalized_in_unit, (of_string_nonneg _ _ Hn).
    + destruct (adjust_pending_some u m w st p Hs2 Hp (or_intror E2))
        as (v & n & _ & Hn & E).
      cbv zeta in E; rewrite E; right.
      exists p, (normalized n (Str.truthy_opt (group m 3))).
      repeat split; auto.
      apply normalized_in_unit, (of_string_nonneg _ _ Hn).
    + unfold adjust_pending, bind, get; simpl.
      rewrite Hs2, Hp; simpl in Ht |- *; rewrite Ht.
      apply String.eqb_neq in N1, N2; rewrite N1, N2.
      destruct (normalize _ _); simpl; auto 10.
Qed.

End AdjustFacts.

(* ===================================================================== *)
(** ** One turn *)

Module TurnFacts.

Import Re Float Tars Spec ReFacts FloatFacts PatternFacts AdjustFacts.

Lemma execute_command_state u w st : snd (fst (execute_command u w st)) = st.
Proof.
  unfold execute_command, bind, ask, call_popen, call_system, speak, print,
    emit, ret; simpl.
  destruct (Str.contains "open browser" u);
    [|destruct (Str.contains "system info" u); [|reflexivity]];
    destruct (os_name w =? "posix"); simpl;
    try destruct (popen w _ _); try destruct (os_system w _); try reflexivity;
    destruct (os_name w =? "nt"); simpl;
    try destruct (popen w _ _); try destruct (os_system w _); reflexivity.
Qed.

Lemma generate_llm_response_state u w st :
  snd (fst (generate_llm_response u w st)) = st.
Proof.
  unfold generate_llm_response, bind, get, ask, emit, print, ret; simpl.
  now destruct (chat w (system_prompt st) u).
Qed.

Lemma generate_llm_response_trace u w st :
  exists line,
    snd (generate_llm_response u w st) = [Chat (system_prompt st) u; Print line].
Proof.
  unfold generate_llm_response, bind, get, ask, emit, print, ret; simpl.
  destruct (chat w (system_prompt st) u); simpl; eauto.
Qed.

(** [execute_command] on an utterance with one of the keywords: the
    confirmation when the launch returns, the error line and [False]
    when it raises. *)
Lemma execute_command_outcome u w st :
  Str.contains "open browser" u = true \/ Str.contains "system info" u = true ->
  let '(executed, _, t) := execute_command u w st in
  match launch_outcome w u with
  | Returns => executed = true /\ spoken t = [confirmation u] /\
               chats t = [] /\ ~ In (Print (error_line u)) t
  | Raises => executed = false /\ spoken t = [] /\ chats t = [] /\
              In (Print (error_line u)) t
  end.
Proof.
  intros H.
  unfold execute_command, launch_outcome, confirmation, error_line, bind, ask,
    call_popen, call_system, speak, print, emit, ret; simpl.
  destruct (Str.contains "open browser" u);
    [|destruct H as [H|H]; [discriminate|]; rewrite H];
    (destruct (os_name w =? "posix"); [|destruct (os_name w =? "nt")]); simpl;
    try destruct (popen w _ _); try destruct (os_system w _); simpl;
    repeat split; auto; intuition discriminate.
Qed.

Lemma generate_llm_response_value u w st :
  chat w (system_prompt st) u <> ChatRaises ->
  fst (fst (generate_llm_response u w st))
  = one_liner (reply_text (chat w (system_prompt st) u)).
Proof.
  intros Hr.
  unfold generate_llm_response, bind, get, ask, emit, print, ret.
  destruct (chat w (system_prompt st) u); [congruence|reflexivity..].
Qed.

Lemma split_nonempty s : forall after, split after s <> [].
Proof.
  induction s as [|c s IH]; intros after; simpl; [discriminate|].
  destruct (after && Str.is_space c); [discriminate|].
  specialize (IH (Str.is_terminator c)).
  now destruct (split (Str.is_terminator c) s).
Qed.

Lemma last_app_point r : Str.last (r ++ ".") = Some "."%char.
Proof.
  induction r as [|c r IH]; simpl; [reflexivity|].
  rewrite IH. now destruct r.
Qed.

(** The test of line 146 never holds: [one_liner] is the first piece,
    stripped, with a point added when it does not end a sentence. *)
Lemma one_liner_check_is_dead s :
  one_liner s =
  let r := Str.strip (hd "" (split_sentences s)) in
  if Str.ends_with_terminator r then r else r ++ ".".
Proof.
  unfold one_liner, split_sentences.
  pose proof (split_nonempty s false) as Hne.
  destruct (split false s) as [|first rest]; [congruence|]; simpl.
  destruct (Str.ends_with_terminator (Str.strip first)) eqn:E.
  - destruct (Str.strip first); [discriminate E | reflexivity].
  - now destruct (Str.strip first).
Qed.

(** What [one_liner] returns is not empty and ends in a terminator. *)
Lemma one_liner_shape s :
  Str.truthy (one_liner s) = true /\
  Str.ends_with_terminator (one_liner s) = true.
Proof.
  rewrite one_liner_check_is_dead; cbv zeta.
  destruct (Str.ends_with_terminator (Str.strip _)) eqn:E.
  - split; [|exact E]. now destruct (Str.strip _).
  - split; [now destruct (Str.strip _)|].
    unfold Str.ends_with_terminator; now rewrite last_app_point.
Qed.

Lemma asks_honesty_truthy u : asks_honesty u = true -> Str.truthy u = true.
Proof. now destruct u. Qed.

Lemma asks_humor_truthy u : asks_humor u = true -> Str.truthy u = true.
Proof. now destruct u. Qed.

Lemma turn_asks_honesty u w st :
  asks_honesty u = true ->
  turn u w st =
  (Continue,
   {| honesty_level := honesty_level st; humor_level := humor_level st;
      pending_param := Some "honesty" |},
   [Speak ("My honesty level is " ++ percent (honesty_level st) ++ " percent.")]).
Proof.
  intros H; unfold turn.
  now rewrite (asks_honesty_truthy u H), H.
Qed.

Lemma turn_asks_humor u w st :
  asks_honesty u = false -> asks_humor u = true ->
  turn u w st =
  (Continue,
   {| honesty_level := honesty_level st; humor_level := humor_level st;
      pending_param := Some "humor" |},
   [Speak ("My humor level is " ++ percent (humor_level st) ++ " percent.")]).
Proof.
  intros H0 H; unfold turn.
  now rewrite (asks_humor_truthy u H), H0, H.
Qed.

(** A turn that is not a question goes through [adjust_personality]. *)
Lemma turn_not_asking u w st :
  Str.truthy u = true -> asks_honesty u = false -> asks_humor u = false ->
  turn u w st =
  (adjustment <- adjust_personality u ;;
   if Str.truthy_opt adjustment then
     speak (match adjustment with Some a => a | None => "" end) ;;
     ret Continue
   else if Str.contains_any exit_words u then
     speak "Shutting down. Goodbye." ;;
     ret Break
   else
     executed <- execute_command u ;;
     if executed then ret Continue
     else
       response <- generate_llm_response u ;;
       speak response ;;
       ret Continue) w st.
Proof.
  intros Ht H1 H2; unfold turn; rewrite Ht, H1, H2; cbn [negb].
  unfold bind at 1, get.
  now destruct (bind (adjust_personality u) _ w st) as [[c st'] t].
Qed.

Lemma turn_adjusted u w st param x st' t :
  Str.truthy u = true -> asks_honesty u = false -> asks_humor u = false ->
  adjust_personality u w st = (Some (adjusted param x), st', t) ->
  turn u w st = (Continue, st', (t ++ [Speak (adjusted param x)])%list).
Proof.
  intros Ht H1 H2 E; rewrite turn_not_asking by assumption.
  unfold bind; rewrite E; reflexivity.
Qed.

(** After [adjust_personality] has returned [None] the globals are not
    touched any more. *)
Lemma turn_not_adjusted u w st st' t :
  Str.truthy u = true -> asks_honesty u = false -> asks_humor u = false ->
  adjust_personality u w st = (None, st', t) ->
  snd (fst (turn u w st)) = st'.
Proof.
  intros Ht H1 H2 E; rewrite turn_not_asking by assumption.
  unfold bind at 1; rewrite E; cbn [Str.truthy_opt].
  destruct (Str.contains_any exit_words u); [reflexivity|].
  unfold bind at 1.
  pose proof (execute_command_state u w st') as Hx.
  destruct (execute_command u w st') as [[[|] st1] t1]; simpl in Hx; subst st1;
    [reflexivity|].
  unfold bind at 1.
  pose proof (generate_llm_response_state u w st') as Hg.
  destruct (generate_llm_response u w st') as [[r st2] t2]; simpl in Hg.
  now subst st2.
Qed.

Lemma search_truthy r u m :
  Re.search r u = Some m -> Re.search r "" = None -> Str.truthy u = true.
Proof. destruct u; [congruence | reflexivity]. Qed.

(** The turn of a named adjustment. *)
Lemma turn_named u m w st :
  asks_honesty u = false -> asks_humor u = false ->
  Re.search pattern_full u = Some m ->
  exists param v n,
    group m 2 = Some param /\ (param = "honesty" \/ param = "humor") /\
    group m 4 = Some v /\ of_string v = Some n /\
    let x := normalized n (Str.truthy_opt (group m 5)) in
    turn u w st = (Continue, store param x st, [Speak (adjusted param x)]).
Proof.
  intros H1 H2 Hs.
  destruct (adjust_named u m w st Hs) as (param & v & n & Hp & Hor & Hv & Hn & E).
  exists param, v, n; repeat split; try assumption.
  cbv zeta in E |- *.
  now rewrite (turn_adjusted u w st _ _ _ _ (search_truthy _ _ _ Hs eq_refl) H1 H2 E).
Qed.

(** The turn of an adjustment of the pending parameter. *)
Lemma turn_pending u m w st param :
  asks_honesty u = false -> asks_humor u = false ->
  Re.search pattern_full u = None ->
  Re.search pattern_it u = Some m ->
  pending_param st = Some param ->
  param = "honesty" \/ param = "humor" ->
  exists v n,
    group m 2 = Some v /\ of_string v = Some n /\
    let x := normalized n (Str.truthy_opt (group m 3)) in
    turn u w st = (Continue, store param x st, [Speak (adjusted param x)]).
Proof.
  intros H1 H2 Hf Hs Hp Hor.
  destruct (adjust_pending_some u m w st param Hs Hp Hor) as (v & n & Hv & Hn & E).
  exists v, n; repeat split; try assumption.
  cbv zeta in E |- *.
  assert (E' : adjust_personality u w st
               = (Some (adjusted param (normalized n (Str.truthy_opt (group m 3)))),
                  store param (normalized n (Str.truthy_opt (group m 3))) st, []))
    by (unfold adjust_personality; now rewrite Hf).
  now rewrite (turn_adjusted u w st _ _ _ _ (search_truthy _ _ _ Hs eq_refl) H1 H2 E').
Qed.

(** The turn that is left to the language model. *)
Lemma turn_chat u w st :
  Str.truthy u = true -> asks_honesty u = false -> asks_humor u = false ->
  Re.search pattern_full u = None ->
  Re.search pattern_it u = None \/ pending_param st = None ->
  Str.contains_any exit_words u = false ->
  Str.contains "open browser" u = false ->
  Str.contains "system info" u = false ->
  exists line,
    turn u w st =
    (Continue, st,
     [Chat (system_prompt st) u; Print line;
      Speak (fst (fst (generate_llm_response u w st)))]).
Proof.
  intros Ht H1 H2 Hf Hp He Hb Hi.
  rewrite turn_not_asking by assumption.
  unfold bind at 1, adjust_personality; rewrite Hf.
  rewrite adjust_pending_none by (destruct Hp as [Hp|Hp]; [auto | rewrite Hp; auto]).
  cbn [Str.truthy_opt]; rewrite He.
  unfold bind at 1, execute_command, ask, ret.
  unfold bind at 1; rewrite Hb, Hi.
  unfold bind at 1.
  pose proof (generate_llm_response_trace u w st) as [line Hg].
  pose proof (generate_llm_response_state u w st) as Hs.
  destruct (generate_llm_response u w st) as [[r st2] t2];
    simpl in Hs, Hg |- *; subst st2 t2.
  now exists line.
Qed.

Lemma store_bounded param x st :
  in_unit x = true -> bounded st -> bounded (store param x st).
Proof.
  intros Hx [Hh Hm]; unfold store, bounded.
  destruct (param =? "honesty"); [simpl; auto|].
  destruct (param =? "humor"); simpl; auto.
Qed.

(** A turn keeps both levels between 0 and 1. *)
Lemma turn_bounded u w st : bounded st -> bounded (snd (fst (turn u w st))).
Proof.
  intros Hb.
  destruct (Str.truthy u) eqn:Ht;
    [|unfold turn; rewrite Ht; exact Hb].
  destruct (asks_honesty u) eqn:H1;
    [rewrite turn_asks_honesty by assumption; exact Hb|].
  destruct (asks_humor u) eqn:H2;
    [rewrite turn_asks_humor by assumption; exact Hb|].
  pose proof (adjust_personality_cases u w st) as Hc.
  destruct (adjust_personality u w st) as [[r st1] t1] eqn:E.
  destruct Hc as [(-> & Hst & _) | (param & x & Hor & Hx & -> & -> & ->)].
  - rewrite (turn_not_adjusted u w st st1 t1 Ht H1 H2 E).
    destruct Hst as [-> | ->]; exact Hb.
  - rewrite (turn_adjusted u w st param x _ [] Ht H1 H2 E).
    now apply store_bounded.
Qed.

Lemma loop_bounded inputs : forall st,
  bounded st -> bounded (snd (fst (loop inputs st))).
Proof.
  induction inputs as [|[w u] rest IH]; intros st Hb; simpl; [exact Hb|].
  pose proof (turn_bounded u w st Hb) as H1.
  destruct (turn u w st) as [[[|] st1] t1]; simpl in H1.
  - specialize (IH st1 H1).
    now destruct (loop rest st1) as [[c2 st2] t2].
  - exact H1.
Qed.

End TurnFacts.

(* ===================================================================== *)
(** ** Runs of the program *)

Module Scenarios.

Import Float Tars Spec.

Example humor_to_45_percent :
  turn "set your humor level to 45%" quiet initial =
  (Continue,
   {| honesty_level := f0_8; humor_level := of_decimal 45 2;
      pending_param := None |},
   [Speak "Adjusted my humor level to 45 percent."]).
Proof. vm_compute; reflexivity. Qed.

Example bare_integer_is_a_percentage :
  normalize (Some "70") None = Some (of_decimal 7 1).
Proof. vm_compute; reflexivity. Qed.

Example bare_fraction_is_taken_as_it_is :
  normalize (Some "0.7") None = Some (of_decimal 7 1).
Proof. vm_compute; reflexivity. Qed.

Example set_it_without_question :
  spoken (snd (turn "set it to 0.3" no_open initial))
  = ["I cannot open a browser in space."] /\
  snd (fst (turn "set it to 0.3" no_open initial)) = initial.
Proof. vm_compute; split; reflexivity. Qed.

Example a_session :
  let '(c, st, t) :=
    main [(quiet, "what is your humor level");
          (quiet, "");
          (quiet, "set it to 70");
          (quiet, "adjust your honesty to 0.95");
          (quiet, "system info");
          (quiet, "shut down");
          (quiet, "set humor to 10")] in
  c = Break /\
  st = {| honesty_level := of_decimal 95 2; humor_level := of_decimal 7 1;
          pending_param := None |} /\
  spoken t = ["TARS here. Awaiting your command.";
              "My humor level is 60 percent.";
              "Adjusted my humor level to 70 percent.";
              "Adjusted my honesty level to 95 percent.";
              "Displaying system information.";
              "Shutting down. Goodbye."] /\
  launched t = [System "uname -a"].
Proof. vm_compute; repeat split; reflexivity. Qed.

End Scenarios.

(* ===================================================================== *)
(** ** The claims *)

Module Claims.

Import Re Float Tars Spec ReFacts FloatFacts PatternFacts AdjustFacts.
Import TurnFacts.

(** C1.  When [pattern_full] is found in the utterance, group 2 names
    the parameter, group 4 is a numeral N, and [adjust_personality]
    leaves in that parameter [float(N)] divided by 100 if group 5 (the
    percent indicator) is present or [float(N)] exceeds 1, and
    [float(N)] otherwise, clamped to the interval from 0 to 1.  The
    numeral 150 without indicator is stored as 1.0. *)
Theorem C1_named_adjustment_normalizes :
  (forall u m w st,
      Re.search pattern_full u = Some m ->
      exists param N n,
        group m 2 = Some param /\ group m 4 = Some N /\
        of_string N = Some n /\
        let x := clamp01 (if Str.truthy_opt (group m 5) || ltb f1_0 n
                          then div n f100_0 else n) in
        level param (snd (fst (adjust_personality u w st))) = Some x /\
        in_unit x = true) /\
  (forall w st,
      honesty_level (snd (fst (adjust_personality "set honesty to 150" w st)))
      = f1_0).
Proof.
  split.
  - intros u m w st Hs.
    destruct (adjust_named u m w st Hs) as (param & v & n & Hp & Hor & Hv & Hn & E).
    exists param, v, n; repeat split; try assumption.
    + cbv zeta in E; rewrite E; simpl.
      now destruct Hor as [-> | ->].
    + apply normalized_in_unit, (of_string_nonneg _ _ Hn).
  - intros w st; vm_compute; reflexivity.
Qed.

Lemma C1_witness :
  let u := "set your humor level to 45%" in
  let m := [(5, "%"); (4, "45"); (3, " level"); (2, "humor"); (1, "set")] in
  Re.search pattern_full u = Some m /\
  exists param N n,
    group m 2 = Some param /\ group m 4 = Some N /\
    of_string N = Some n /\
    let x := clamp01 (if Str.truthy_opt (group m 5) || ltb f1_0 n
                      then div n f100_0 else n) in
    level param (snd (fst (adjust_personality u quiet initial))) = Some x /\
    in_unit x = true.
Proof.
  intros u m; split; [reflexivity|].
  exact (proj1 C1_named_adjustment_normalizes u m quiet initial eq_refl).
Defined.

(** C2.  Whatever [listen] returns and whatever the world does, after
    any number of turns from the defaults (honesty 0.8, humor 0.6) both
    levels lie between 0 and 1 inclusive. *)
Theorem C2_levels_stay_in_unit_interval :
  forall inputs : list (world * string),
    let st := snd (fst (main inputs)) in
    leb f0_0 (honesty_level st) = true /\ leb (honesty_level st) f1_0 = true /\
    leb f0_0 (humor_level st) = true /\ leb (humor_level st) f1_0 = true.
Proof.
  intros inputs; unfold main; simpl.
  pose proof (loop_bounded inputs initial) as H.
  destruct (loop inputs initial) as [[c st] t]; simpl in *.
  destruct H as [Hh Hm]; [split; reflexivity|].
  unfold in_unit in Hh, Hm.
  apply andb_prop in Hh as [? ?], Hm as [? ?]; auto.
Qed.

(** C9.  A turn whose transcription is the empty string does nothing:
    no sentence and no other event, the three globals unchanged, and
    the loop goes on with the next input. *)
Theorem C9_empty_transcription_is_noop :
  forall w st rest,
    turn "" w st = (Continue, st, []) /\
    loop ((w, "") :: rest) st = loop rest st.
Proof.
  intros w st rest; split; [reflexivity|].
  simpl. now destruct (loop rest st) as [[c st'] t].
Qed.

(** C7, as amended.  An utterance that contains "honesty", "what" and
    "level" as substrings is answered as a question about honesty:
    "honesty" becomes pending and the one sentence spoken gives the
    honesty level times 100, formatted without decimals.  An utterance
    that contains "humor", "what" and "level" and does not contain
    "honesty" is answered in the same way about humor.  With the
    defaults, "what is my honesty level" is answered with 80 percent. *)
Theorem C7_question_sets_pending_and_reports :
  (forall u w st,
      Str.contains "honesty" u = true -> Str.contains "what" u = true ->
      Str.contains "level" u = true ->
      turn u w st =
      (Continue,
       {| honesty_level := honesty_level st; humor_level := humor_level st;
          pending_param := Some "honesty" |},
       [Speak ("My honesty level is " ++ format_0f (mul (honesty_level st) f100_0)
               ++ " percent.")])) /\
  (forall u w st,
      Str.contains "humor" u = true -> Str.contains "what" u = true ->
      Str.contains "level" u = true -> Str.contains "honesty" u = false ->
      turn u w st =
      (Continue,
       {| honesty_level := honesty_level st; humor_level := humor_level st;
          pending_param := Some "humor" |},
       [Speak ("My humor level is " ++ format_0f (mul (humor_level st) f100_0)
               ++ " percent.")])) /\
  (forall w,
      turn "what is my honesty level" w initial =
      (Continue,
       {| honesty_level := f0_8; humor_level := f0_6;
          pending_param := Some "honesty" |},
       [Speak "My honesty level is 80 percent."])).
Proof.
  split; [|split].
  - intros u w st H1 H2 H3. apply turn_asks_honesty.
    unfold asks_honesty; now rewrite H1, H2, H3.
  - intros u w st H1 H2 H3 H4. apply turn_asks_humor.
    + unfold asks_honesty; now rewrite H4.
    + unfold asks_humor; now rewrite H1, H2, H3.
  - intros w; reflexivity.
Qed.

Lemma C7_witness :
  let u := "humorous whatever level" in
  (Str.contains "humor" u = true /\ Str.contains "what" u = true /\
   Str.contains "level" u = true /\ Str.contains "honesty" u = false) /\
  turn u quiet initial =
  (Continue,
   {| honesty_level := honesty_level initial;
      humor_level := humor_level initial;
      pending_param := Some "humor" |},
   [Speak ("My humor level is " ++ format_0f (mul (humor_level initial) f100_0)
           ++ " percent.")]).
Proof.
  intros u; split; [repeat split|].
  exact (proj1 (proj2 C7_question_sets_pending_and_reports) u quiet initial
           eq_refl eq_refl eq_refl eq_refl).
Defined.

(** C7 as it is written fails: this utterance contains "humor", "what"
    and "level", and the turn makes "honesty" pending and reports the
    honesty level. *)
Lemma C7_counterexample :
  let u := "what is my humor and honesty level" in
  Str.contains "humor" u = true /\ Str.contains "what" u = true /\
  Str.contains "level" u = true /\
  pending_param (snd (fst (turn u quiet initial))) <> Some "humor" /\
  spoken (snd (turn u quiet initial)) = ["My honesty level is 80 percent."].
Proof.
  intros u; repeat split. vm_compute; discriminate.
Qed.

(** C10.  A turn that adjusts the parameter named in the utterance, or
    the pending parameter, leaves the level of the other parameter as
    it was; a turn that answers a question leaves both levels as they
    were. *)
Theorem C10_adjustment_and_question_frame :
  (forall u m param w st,
      asks_honesty u = false -> asks_humor u = false ->
      Re.search pattern_full u = Some m -> group m 2 = Some param ->
      let st' := snd (fst (turn u w st)) in
      (param = "honesty" -> humor_level st' = humor_level st) /\
      (param = "humor" -> honesty_level st' = honesty_level st)) /\
  (forall u m param w st,
      asks_honesty u = false -> asks_humor u = false ->
      Re.search pattern_full u = None -> Re.search pattern_it u = Some m ->
      pending_param st = Some param ->
      let st' := snd (fst (turn u w st)) in
      (param = "honesty" -> humor_level st' = humor_level st) /\
      (param = "humor" -> honesty_level st' = honesty_level st)) /\
  (forall u w st,
      asks_honesty u = true \/ asks_humor u = true ->
      let st' := snd (fst (turn u w st)) in
      honesty_level st' = honesty_level st /\
      humor_level st' = humor_level st).
Proof.
  split; [|split].
  - intros u m param w st H1 H2 Hs Hp.
    destruct (turn_named u m w st H1 H2 Hs) as (p & v & n & Hp' & _ & _ & _ & E).
    cbv zeta in E |- *; rewrite E; simpl.
    assert (p = param) by congruence; subst p.
    split; intros ->; reflexivity.
  - intros u m param w st H1 H2 Hf Hs Hp.
    cbv zeta; split; intros ->.
    + destruct (turn_pending u m w st _ H1 H2 Hf Hs Hp (or_introl eq_refl))
        as (v & n & _ & _ & E).
      cbv zeta in E; now rewrite E.
    + destruct (turn_pending u m w st _ H1 H2 Hf Hs Hp (or_intror eq_refl))
        as (v & n & _ & _ & E).
      cbv zeta in E; now rewrite E.
  - intros u w st H; cbv zeta.
    destruct (asks_honesty u) eqn:H1.
    + now rewrite turn_asks_honesty.
    + destruct H as [H|H]; [discriminate|]. now rewrite turn_asks_humor.
Qed.

Lemma C10_witness :
  let u := "adjust your honesty to 0.25" in
  let m := [(4, "0.25"); (2, "honesty"); (1, "adjust")] in
  let st' := snd (fst (turn u quiet initial)) in
  (asks_honesty u = false /\ asks_humor u = false /\
   Re.search pattern_full u = Some m /\ group m 2 = Some "honesty") /\
  ("honesty" = "honesty" -> humor_level st' = humor_level initial) /\
  ("honesty" = "humor" -> honesty_level st' = honesty_level initial).
Proof.
  intros u m st'; split; [repeat split|].
  exact (proj1 C10_adjustment_and_question_frame u m "honesty" quiet initial
           eq_refl eq_refl eq_refl eq_refl).
Defined.

(** C8.  When an utterance is taken as a named adjustment (it is not a
    question and [pattern_full] is found in it), two turns in a row
    with that utterance store the same value in the named parameter
    and speak the same confirmation; the second turn leaves the state
    of the first. *)
Theorem C8_named_adjustment_idempotent :
  forall u m w1 w2 st,
    asks_honesty u = false -> asks_humor u = false ->
    Re.search pattern_full u = Some m ->
    let r1 := turn u w1 st in
    let r2 := turn u w2 (snd (fst r1)) in
    exists param x,
      group m 2 = Some param /\
      level param (snd (fst r1)) = Some x /\
      level param (snd (fst r2)) = Some x /\
      snd r1 = [Speak (adjusted param x)] /\
      snd r2 = [Speak (adjusted param x)] /\
      snd (fst r2) = snd (fst r1).
Proof.
  intros u m w1 w2 st H1 H2 Hs; cbv zeta.
  destruct (turn_named u m w1 st H1 H2 Hs) as (p & v & n & Hp & Hor & Hv & Hn & E).
  cbv zeta in E; rewrite E; simpl.
  destruct (turn_named u m w2 (store p (normalized n (Str.truthy_opt (group m 5))) st)
              H1 H2 Hs) as (p' & v' & n' & Hp' & _ & Hv' & Hn' & E').
  cbv zeta in E'.
  assert (p' = p) by congruence; subst p'.
  assert (v' = v) by congruence; subst v'.
  assert (n' = n) by congruence; subst n'.
  rewrite E'; simpl.
  exists p, (normalized n (Str.truthy_opt (group m 5))).
  destruct Hor as [-> | ->]; repeat split; assumption.
Qed.

Lemma C8_witness :
  let u := "set your humor level to 45%" in
  let m := [(5, "%"); (4, "45"); (3, " level"); (2, "humor"); (1, "set")] in
  let r1 := turn u quiet initial in
  let r2 := turn u quiet (snd (fst r1)) in
  (asks_honesty u = false /\ asks_humor u = false /\
   Re.search pattern_full u = Some m) /\
  exists param x,
    group m 2 = Some param /\
    level param (snd (fst r1)) = Some x /\
    level param (snd (fst r2)) = Some x /\
    snd r1 = [Speak (adjusted param x)] /\
    snd r2 = [Speak (adjusted param x)] /\
    snd (fst r2) = snd (fst r1).
Proof.
  intros u m r1 r2; split; [repeat split|].
  exact (C8_named_adjustment_idempotent u m quiet quiet initial
           eq_refl eq_refl eq_refl).
Defined.

(** C4.  An utterance with an exit word and a system-command keyword
    that is neither a question nor an adjustment (no [pattern_full];
    no [pattern_it], or nothing pending) ends the loop: the farewell
    is the only event of the turn, nothing is launched, and the inputs
    that follow are not read. *)
Theorem C4_exit_before_system_command :
  forall u w st rest,
    Str.contains_any exit_words u = true ->
    Str.contains "open browser" u = true \/ Str.contains "system info" u = true ->
    asks_honesty u = false -> asks_humor u = false ->
    Re.search pattern_full u = None ->
    Re.search pattern_it u = None \/ pending_param st = None ->
    turn u w st = (Break, st, [Speak "Shutting down. Goodbye."]) /\
    launched (snd (turn u w st)) = [] /\
    loop ((w, u) :: rest) st = (Break, st, [Speak "Shutting down. Goodbye."]).
Proof.
  intros u w st rest He _ H1 H2 Hf Hp.
  assert (Ht : Str.truthy u = true) by (now destruct u).
  assert (E : turn u w st = (Break, st, [Speak "Shutting down. Goodbye."])).
  { rewrite turn_not_asking by assumption.
    unfold bind at 1, adjust_personality; rewrite Hf.
    rewrite adjust_pending_none by (destruct Hp as [Hp|Hp]; [auto | rewrite Hp; auto]).
    cbn [Str.truthy_opt]; now rewrite He. }
  split; [exact E|]. split; [now rewrite E|].
  cbn [loop]; now rewrite E.
Qed.

Lemma C4_witness :
  let u := "goodbye, open browser" in
  (Str.contains_any exit_words u = true /\
   (Str.contains "open browser" u = true \/ Str.contains "system info" u = true) /\
   asks_honesty u = false /\ asks_humor u = false /\
   Re.search pattern_full u = None /\
   (Re.search pattern_it u = None \/ pending_param initial = None)) /\
  turn u quiet initial = (Break, initial, [Speak "Shutting down. Goodbye."]) /\
  launched (snd (turn u quiet initial)) = [] /\
  loop ((quiet, u) :: [(quiet, "open browser")]) initial
  = (Break, initial, [Speak "Shutting down. Goodbye."]).
Proof.
  intros u; split; [repeat split; auto|].
  exact (C4_exit_before_system_command u quiet initial [(quiet, "open browser")]
           eq_refl (or_introl eq_refl) eq_refl eq_refl eq_refl (or_introl eq_refl)).
Defined.

(** C6, as amended.  On a turn that reaches [execute_command] with one
    of its keywords the loop continues and the globals are unchanged.
    When the launch returns (or there is nothing to launch on this
    system) the confirmation is the one sentence spoken and the model
    is not called.  When the launch raises, the error line is printed,
    [execute_command] returns [False], and the one sentence spoken is
    the one [generate_llm_response] makes for the utterance. *)
Theorem C6_system_command_turn :
  forall u w st,
    asks_honesty u = false -> asks_humor u = false ->
    Re.search pattern_full u = None ->
    Re.search pattern_it u = None \/ pending_param st = None ->
    Str.contains_any exit_words u = false ->
    Str.contains "open browser" u = true \/ Str.contains "system info" u = true ->
    let '(c, st', t) := turn u w st in
    c = Continue /\ st' = st /\
    match launch_outcome w u with
    | Returns =>
        spoken t = [confirmation u] /\ chats t = [] /\
        ~ In (Print (error_line u)) t
    | Raises =>
        In (Print (error_line u)) t /\
        chats t = [Chat (system_prompt st) u] /\
        spoken t = [fst (fst (generate_llm_response u w st))]
    end.
Proof.
  intros u w st H1 H2 Hf Hp He Hk.
  assert (Ht : Str.truthy u = true) by (destruct u; [now destruct Hk|reflexivity]).
  rewrite turn_not_asking by assumption.
  unfold bind at 1, adjust_personality; rewrite Hf.
  rewrite adjust_pending_none by (destruct Hp as [Hp|Hp]; [auto | rewrite Hp; auto]).
  cbn [Str.truthy_opt]; rewrite He.
  unfold bind at 1.
  pose proof (execute_command_outcome u w st Hk) as Hx.
  pose proof (execute_command_state u w st) as Hs.
  destruct (execute_command u w st) as [[executed st1] t1]; simpl in Hs; subst st1.
  destruct (launch_outcome w u).
  - destruct Hx as (-> & Hsp & Hch & Hpr); simpl.
    rewrite app_nil_r; auto.
  - destruct Hx as (-> & Hsp & Hch & Hpr).
    unfold bind at 1.
    pose proof (generate_llm_response_trace u w st) as [line Hg].
    pose proof (generate_llm_response_state u w st) as Hs.
    destruct (generate_llm_response u w st) as [[r st2] t2];
      simpl in Hs, Hg |- *; subst st2 t2.
    repeat split.
    + apply in_or_app; now left.
    + clear - Hch. induction t1 as [|[] t1 IH]; simpl in *; auto; discriminate.
    + clear - Hsp. induction t1 as [|[] t1 IH]; simpl in *; auto; discriminate.
Qed.

Lemma C6_witness :
  let u := "open browser" in
  (asks_honesty u = false /\ asks_humor u = false /\
   Re.search pattern_full u = None /\
   (Re.search pattern_it u = None \/ pending_param initial = None) /\
   Str.contains_any exit_words u = false /\
   (Str.contains "open browser" u = true \/ Str.contains "system info" u = true)) /\
  let '(c, st', t) := turn u no_open initial in
  c = Continue /\ st' = initial /\
  match launch_outcome no_open u with
  | Returns =>
      spoken t = [confirmation u] /\ chats t = [] /\
      ~ In (Print (error_line u)) t
  | Raises =>
      In (Print (error_line u)) t /\
      chats t = [Chat (system_prompt initial) u] /\
      spoken t = [fst (fst (generate_llm_response u no_open initial))]
  end.
Proof.
  intros u; split; [repeat split; auto|].
  exact (C6_system_command_turn u no_open initial eq_refl eq_refl eq_refl
           (or_introl eq_refl) eq_refl (or_introl eq_refl)).
Defined.

(** C6 as it is written fails: where [Popen] raises, the turn prints
    the error line and speaks the sentence of the model; the
    confirmation is not spoken. *)
Lemma C6_counterexample :
  let t := snd (turn "open browser" no_open initial) in
  launched t = [Popen ["open"; "-a"; "Google Chrome"] false] /\
  In (Print "Error opening browser: ") t /\
  spoken t = ["I cannot open a browser in space."] /\
  ~ In "Opening browser." (spoken t).
Proof.
  vm_compute; repeat split; auto.
  intros [H|[]]; discriminate H.
Qed.

(** C3.  When the text taken from the reply of the model is empty,
    [generate_llm_response] returns a lone point and not the apology:
    the point is added before the test for an empty response. *)
Theorem C3_empty_reply_gives_lone_point :
  forall u w st,
    chat w (system_prompt st) u <> ChatRaises ->
    reply_text (chat w (system_prompt st) u) = "" ->
    fst (fst (generate_llm_response u w st)) = "." /\
    fst (fst (generate_llm_response u w st)) <> apology.
Proof.
  intros u w st Hr Ht.
  rewrite (generate_llm_response_value u w st Hr), Ht.
  split; [reflexivity | discriminate].
Qed.

Lemma C3_witness :
  let u := "tell me about the wormhole" in
  (chat mute (system_prompt initial) u <> ChatRaises /\
   reply_text (chat mute (system_prompt initial) u) = "") /\
  fst (fst (generate_llm_response u mute initial)) = "." /\
  fst (fst (generate_llm_response u mute initial)) <> apology.
Proof.
  intros u.
  assert (H1 : chat mute (system_prompt initial) u <> ChatRaises) by discriminate.
  assert (H2 : reply_text (chat mute (system_prompt initial) u) = "") by reflexivity.
  split; [split; assumption|].
  exact (C3_empty_reply_gives_lone_point u mute initial H1 H2).
Defined.

(** C5.  From any state: a question about a parameter makes that
    parameter pending; a following "set it to N" stores the normalized
    N in that parameter, leaves the other level as it was and leaves
    nothing pending; a third "set it to N" right after it changes
    nothing and is handed to the language model, whose sentence is
    the one spoken. *)
Theorem C5_question_then_set_it_round_trip :
  forall st q p u2 u3 w1 w2 w3,
    asked q = Some p -> is_set_it u2 = true -> is_set_it u3 = true ->
    let st1 := snd (fst (turn q w1 st)) in
    let st2 := snd (fst (turn u2 w2 st1)) in
    let r3 := turn u3 w3 st2 in
    pending_param st1 = Some p /\
    (exists m N n,
        Re.search pattern_it u2 = Some m /\ group m 2 = Some N /\
        of_string N = Some n /\
        level p st2 = Some (normalized n (Str.truthy_opt (group m 3)))) /\
    (p = "honesty" -> humor_level st2 = humor_level st) /\
    (p = "humor" -> honesty_level st2 = honesty_level st) /\
    pending_param st2 = None /\
    snd (fst r3) = st2 /\
    fst (fst r3) = Continue /\
    chats (snd r3) = [Chat (system_prompt st2) u3] /\
    spoken (snd r3) = [fst (fst (generate_llm_response u3 w3 st2))].
Proof.
  intros st q p u2 u3 w1 w2 w3 Hq H2 H3.
  destruct (is_set_it_only u2 H2) as (A1 & A2 & A3 & (m & A4) & _).
  destruct (is_set_it_only u3 H3) as (B1 & B2 & B3 & (m3 & B4) & B5 & B6 & B7).
  assert (E1 : turn q w1 st =
               (Continue,
                {| honesty_level := honesty_level st;
                   humor_level := humor_level st; pending_param := Some p |},
                [Speak ("My " ++ p ++ " level is "
                        ++ percent (if p =? "honesty" then honesty_level st
                                    else humor_level st)
                        ++ " percent.")])
               /\ (p = "honesty" \/ p = "humor")).
  { unfold asked in Hq. destruct (asks_honesty q) eqn:Q1.
    - injection Hq as <-. rewrite turn_asks_honesty by assumption. auto.
    - destruct (asks_humor q) eqn:Q2; [|discriminate].
      injection Hq as <-. rewrite turn_asks_humor by assumption. auto. }
  destruct E1 as [E1 Hor]; cbv zeta; rewrite E1; cbn [fst snd].
  set (st1 := {| honesty_level := honesty_level st;
                 humor_level := humor_level st; pending_param := Some p |}).
  destruct (turn_pending u2 m w2 st1 p A1 A2 A3 A4 eq_refl Hor)
    as (N & n & HN & Hn & E2).
  cbv zeta in E2; rewrite E2; cbn [fst snd].
  set (x := normalized n (Str.truthy_opt (group m 3))) in *.
  assert (Hp2 : pending_param (store p x st1) = None)
    by (destruct Hor as [-> | ->]; reflexivity).
  destruct (turn_chat u3 w3 (store p x st1)
              (search_truthy _ _ _ B4 eq_refl) B1 B2 B3 (or_intror Hp2) B5 B6 B7)
    as [line E3].
  rewrite E3; cbn [fst snd spoken chats].
  split; [reflexivity|].
  split; [exists m, N, n; repeat split; try assumption;
          destruct Hor as [-> | ->]; reflexivity|].
  repeat split; try assumption; intros ->; reflexivity.
Qed.

Lemma C5_witness :
  let q := "what is your humor level" in
  let u2 := "set it to 70" in
  let u3 := "adjust it to 0.3 percent" in
  let st1 := snd (fst (turn q quiet initial)) in
  let st2 := snd (fst (turn u2 quiet st1)) in
  let r3 := turn u3 mute st2 in
  (asked q = Some "humor" /\ is_set_it u2 = true /\ is_set_it u3 = true) /\
  pending_param st1 = Some "humor" /\
  (exists m N n,
      Re.search pattern_it u2 = Some m /\ group m 2 = Some N /\
      of_string N = Some n /\
      level "humor" st2 = Some (normalized n (Str.truthy_opt (group m 3)))) /\
  ("humor" = "honesty" -> humor_level st2 = humor_level initial) /\
  ("humor" = "humor" -> honesty_level st2 = honesty_level initial) /\
  pending_param st2 = None /\
  snd (fst r3) = st2 /\
  fst (fst r3) = Continue /\
  chats (snd r3) = [Chat (system_prompt st2) u3] /\
  spoken (snd r3) = [fst (fst (generate_llm_response u3 mute st2))].
Proof.
  intros q u2 u3 st1 st2 r3; split; [repeat split|].
  exact (C5_question_then_set_it_round_trip initial q "humor" u2 u3
           quiet quiet mute eq_refl eq_refl eq_refl).
Defined.

End Claims.

(* ===================================================================== *)
(** ** The sentence of the language model *)

Module ResponseFacts.

Import Float Tars Spec Shape TurnFacts.

Lemma boundary_free_weaken s : forall after,
  boundary_free after s = true -> boundary_free false s = true.
Proof.
  destruct s as [|c s]; intros after; simpl; [reflexivity|].
  intros H; apply andb_prop in H as [_ H]; exact H.
Qed.

Lemma split_boundary_free s : forall after,
  boundary_free after s = true -> split after s = [s].
Proof.
  induction s as [|c s IH]; intros after; simpl; [reflexivity|].
  intros H; apply andb_prop in H as [H1 H2].
  apply negb_true_iff in H1; rewrite H1.
  now rewrite (IH _ H2).
Qed.

Lemma split_head_boundary_free s : forall after,
  boundary_free after (hd "" (split after s)) = true.
Proof.
  induction s as [|c s IH]; intros after; simpl; [reflexivity|].
  destruct (after && Str.is_space c) eqn:E; [reflexivity|].
  specialize (IH (Str.is_terminator c)).
  pose proof (split_nonempty s (Str.is_terminator c)) as Hne.
  destruct (split (Str.is_terminator c) s) as [|p ps]; [congruence|].
  simpl in *. now rewrite E, IH.
Qed.

Lemma space_not_terminator c :
  Str.is_space c = true -> Str.is_terminator c = false.
Proof.
  unfold Str.is_terminator; intros H.
  destruct (Ascii.eqb_spec c "."%char) as [->|]; [discriminate H|].
  destruct (Ascii.eqb_spec c "!"%char) as [->|]; [discriminate H|].
  destruct (Ascii.eqb_spec c "?"%char) as [->|]; [discriminate H|].
  reflexivity.
Qed.

Lemma boundary_free_lstrip s : forall after,
  boundary_free after s = true -> boundary_free false (Str.lstrip s) = true.
Proof.
  induction s as [|c s IH]; intros after; simpl; [reflexivity|].
  intros H; apply andb_prop in H as [H1 H2].
  destruct (Str.is_space c) eqn:Hc.
  - rewrite (space_not_terminator c Hc) in H2. now apply (IH false).
  - simpl; exact H2.
Qed.

Lemma boundary_free_rstrip s : forall after,
  boundary_free after s = true -> boundary_free after (Str.rstrip s) = true.
Proof.
  induction s as [|c s IH]; intros after; simpl; [reflexivity|].
  intros H; apply andb_prop in H as [H1 H2].
  specialize (IH _ H2).
  destruct (Str.rstrip s) as [|c' s'].
  - destruct (Str.is_space c) eqn:Hc; simpl;
      [reflexivity | now rewrite Hc, andb_false_r].
  - simpl in IH |- *. now rewrite H1, IH.
Qed.

Lemma boundary_free_app_point s : forall after,
  boundary_free after s = true -> boundary_free after (s ++ ".") = true.
Proof.
  induction s as [|c s IH]; intros after; simpl.
  - intros _; now rewrite andb_false_r.
  - intros H; apply andb_prop in H as [-> H2]; simpl; auto.
Qed.

Lemma lstrip_no_leading_space s : no_leading_space (Str.lstrip s) = true.
Proof.
  induction s as [|c s IH]; simpl; [reflexivity|].
  destruct (Str.is_space c) eqn:Hc; [exact IH | simpl; now rewrite Hc].
Qed.

Lemma lstrip_fixed s : no_leading_space s = true -> Str.lstrip s = s.
Proof.
  destruct s as [|c s]; simpl; [reflexivity|].
  now intros ->%negb_true_iff.
Qed.

Lemma rstrip_no_leading_space s :
  no_leading_space s = true -> no_leading_space (Str.rstrip s) = true.
Proof.
  destruct s as [|c s]; simpl; [reflexivity|].
  intros H; destruct (Str.rstrip s); [|exact H].
  apply negb_true_iff in H; rewrite H; simpl; now rewrite H.
Qed.

Lemma rstrip_idem s : Str.rstrip (Str.rstrip s) = Str.rstrip s.
Proof.
  induction s as [|c s IH]; simpl; [reflexivity|].
  destruct (Str.rstrip s) as [|c' s'] eqn:E.
  - destruct (Str.is_space c) eqn:Hc; simpl; [reflexivity | now rewrite Hc].
  - change (Str.rstrip (String c (String c' s')))
      with (match Str.rstrip (String c' s') with
            | "" => if Str.is_space c then "" else String c ""
            | t => String c t
            end).
    now rewrite IH.
Qed.

Lemma strip_idem s : Str.strip (Str.strip s) = Str.strip s.
Proof.
  unfold Str.strip.
  rewrite (lstrip_fixed (Str.rstrip (Str.lstrip s)))
    by apply rstrip_no_leading_space, lstrip_no_leading_space.
  apply rstrip_idem.
Qed.

Lemma rstrip_app_point s : Str.rstrip (s ++ ".") = s ++ ".".
Proof.
  induction s as [|c s IH]; [reflexivity|].
  change (Str.rstrip (String c s ++ "."))
    with (match Str.rstrip (s ++ ".") with
          | "" => if Str.is_space c then "" else String c ""
          | t => String c t
          end).
  rewrite IH. now destruct s.
Qed.

Lemma strip_app_point s :
  no_leading_space s = true -> Str.strip (s ++ ".") = s ++ ".".
Proof.
  intros H; unfold Str.strip.
  rewrite lstrip_fixed by (destruct s; [reflexivity | exact H]).
  apply rstrip_app_point.
Qed.

Lemma strip_no_leading_space s : no_leading_space (Str.strip s) = true.
Proof. apply rstrip_no_leading_space, lstrip_no_leading_space. Qed.

(** What [one_liner] returns is one sentence that [one_liner] gives back
    as it is. *)
Lemma one_liner_fixed s :
  let r := one_liner s in
  boundary_free false r = true /\ Str.strip r = r /\ one_liner r = r.
Proof.
  cbv zeta.
  assert (H : boundary_free false (one_liner s) = true /\
              Str.strip (one_liner s) = one_liner s).
  { rewrite one_liner_check_is_dead; cbv zeta.
    pose proof (split_head_boundary_free s false) as Hb.
    fold (split_sentences s) in Hb.
    assert (Hs : boundary_free false (Str.strip (hd "" (split_sentences s))) = true)
      by (apply boundary_free_rstrip, (boundary_free_lstrip _ false), Hb).
    destruct (Str.ends_with_terminator _).
    - split; [exact Hs | apply strip_idem].
    - split; [now apply boundary_free_app_point|].
      apply strip_app_point, strip_no_leading_space. }
  destruct H as [Hb Hs]; repeat split; try assumption.
  destruct (one_liner_shape s) as [Ht He].
  unfold one_liner at 1, split_sentences.
  rewrite (split_boundary_free _ false Hb), Hs, He.
  now destruct (one_liner s).
Qed.

End ResponseFacts.

(* ===================================================================== *)
(** ** The numeral a pattern reads *)

Module NumeralFacts.

Import Re Float Tars Spec Shape ReFacts FloatFacts PatternFacts.

Section Total.
Context {A : Type}.

Lemma or_else_first (x y : option A) : x <> None -> or_else x y = x.
Proof. now destruct x. Qed.

(** Before a continuation that never fails, a repetition takes all it
    can. *)
Lemma star_total cls s : forall c (k : @cont A),
  total k ->
  star cls s c k = let '(d, r) := take_while cls s in k d r c.
Proof.
  induction s as [|a s IH]; intros c k Hk; simpl; [reflexivity|].
  destruct (cls a); [|reflexivity].
  assert (Hk' : total (fun w => k (String a w))) by (intros w s' c'; apply Hk).
  rewrite or_else_first; rewrite (IH c _ Hk');
    destruct (take_while cls s) as [d r]; [reflexivity | apply Hk].
Qed.

(** Before a continuation that never fails, the numeral pattern takes
    the longest numeral. *)
Lemma numeral_total s c (k : @cont A) :
  total k ->
  run (Seq (Plus Str.is_digit) (Opt (Seq (Lit ".") (Plus Str.is_digit)))) s c k
  = match take_numeral s with
    | Some (v, rest) => k v rest c
    | None => None
    end.
Proof.
  intros Hk. destruct s as [|a s]; [reflexivity|].
  cbn [run take_numeral].
  destruct (Str.is_digit a) eqn:Ha; [|reflexivity].
  rewrite star_total.
  2:{ intros w s' c'. apply or_else_some. right. apply Hk. }
  destruct (take_while Str.is_digit s) as [d r].
  destruct r as [|p [|b r']].
  - cbn [strip_prefix or_else]. now rewrite app_empty_r.
  - cbn [strip_prefix].
    destruct ("." =? p)%char; cbn [run or_else]; now rewrite app_empty_r.
  - cbn [strip_prefix].
    destruct (Ascii.eqb_spec "."%char p) as [<-|Hp].
    + cbn [Ascii.eqb Bool.eqb andb].
      destruct (Str.is_digit b) eqn:Hb; cbn [or_else].
      * rewrite star_total by (intros w s' c'; apply Hk).
        destruct (take_while Str.is_digit r') as [e r''].
        rewrite or_else_first by apply Hk. reflexivity.
      * now rewrite app_empty_r.
    + assert (E : (p =? ".")%char = false).
      { destruct (Ascii.eqb_spec p "."%char); congruence. }
      rewrite E; cbn [andb or_else]. now rewrite app_empty_r.
Qed.

End Total.

Lemma append_assoc (x y z : string) : (x ++ y) ++ z = x ++ (y ++ z).
Proof. induction x as [|a x IH]; simpl; congruence. Qed.

Lemma prefix_here sub y : String.prefix sub (sub ++ y) = true.
Proof.
  induction sub as [|a sub IH]; simpl; [now destruct y|].
  now destruct (Ascii.ascii_dec a a).
Qed.

Lemma prefix_app_l sub : forall x y,
  String.prefix sub x = true -> String.prefix sub (x ++ y) = true.
Proof.
  induction sub as [|a sub IH]; intros [|b x] y; simpl; try easy.
  - now destruct y.
  - destruct (Ascii.ascii_dec a b); [apply IH | discriminate].
Qed.

Lemma contains_here sub y : Str.contains sub (sub ++ y) = true.
Proof.
  destruct (sub ++ y) eqn:E; cbn [Str.contains]; rewrite <- E;
    now rewrite prefix_here.
Qed.

Lemma contains_app_r sub x y :
  Str.contains sub y = true -> Str.contains sub (x ++ y) = true.
Proof.
  intros H; induction x as [|a x IH]; [exact H|].
  cbn [append Str.contains]. rewrite IH. now destruct (String.prefix _ _).
Qed.

Lemma contains_app_l sub x y :
  Str.contains sub x = true -> Str.contains sub (x ++ y) = true.
Proof.
  induction x as [|a x IH].
  - cbn [Str.contains]. destruct (String.prefix sub "") eqn:E; [|discriminate].
    intros _. destruct sub; [|discriminate E]. now destruct y.
  - cbn [append Str.contains].
    destruct (String.prefix sub (String a x)) eqn:E.
    + intros _. change (String a (x ++ y)) with (String a x ++ y).
      now rewrite (prefix_app_l _ _ y E).
    + intros H. rewrite (IH H).
      now destruct (String.prefix sub (String a (x ++ y))).
Qed.

Lemma take_while_spec p s d r :
  take_while p s = (d, r) ->
  s = d ++ r /\ Str.all p d = true /\
  match r with String c _ => p c = false | EmptyString => True end.
Proof.
  revert d r; induction s as [|a s IH]; intros d r; simpl.
  - intros [= <- <-]; auto.
  - destruct (p a) eqn:Ha.
    + destruct (take_while p s) as [d' r']. intros [= <- <-].
      destruct (IH d' r' eq_refl) as (-> & Hd & Hr).
      simpl; rewrite Ha, Hd; auto.
    + intros [= <- <-]; simpl; auto.
Qed.

(** What [take_numeral] returns is a numeral, and no longer numeral
    starts at the same place. *)
Lemma take_numeral_spec s v rest :
  take_numeral s = Some (v, rest) ->
  s = v ++ rest /\ numeral v /\ starts_with_digit rest = false /\
  (Str.contains "." v = false -> starts_with_fraction rest = false).
Proof.
  destruct s as [|a s]; [discriminate|]; cbn [take_numeral].
  destruct (Str.is_digit a) eqn:Ha; [|discriminate].
  destruct (take_while Str.is_digit s) as [d r] eqn:Ed.
  apply take_while_spec in Ed as (-> & Hd & Hr).
  assert (Hint : forall r0, match r0 with String c _ => Str.is_digit c = false
                                        | "" => True end ->
                 starts_with_digit r0 = false)
    by (intros [|c r0]; simpl; auto).
  destruct r as [|p [|b r']].
  - intros [= <- <-]. split; [reflexivity|]. split; [now constructor|]. auto.
  - intros [= <- <-]. split; [reflexivity|]. split; [now constructor|].
    split; [exact Hr | intros _; simpl; now rewrite andb_false_r].
  - destruct ((p =? ".")%char && Str.is_digit b) eqn:E.
    + apply andb_prop in E as [Hp Hb]. apply Ascii.eqb_eq in Hp; subst p.
      destruct (take_while Str.is_digit r') as [e r''] eqn:Ee.
      apply take_while_spec in Ee as (-> & He & Hr'').
      intros [= <- <-]. split; [|split; [|split]].
      * cbn [append]. rewrite append_assoc. reflexivity.
      * now apply num_frac.
      * now apply Hint.
      * intros Hc.
        pose proof (contains_app_r "." (String a d) _
                      (contains_here "." (String b e))) as Ht.
        cbn [append] in Ht, Hc; congruence.
    + intros [= <- <-]. split; [reflexivity|]. split; [now constructor|].
      split; [exact Hr | intros _; exact E].
Qed.

Lemma seq_peel {A} r1 r2 s c (k : @cont A) res :
  run (Seq r1 r2) s c k = Some res ->
  exists w1 s1 c1,
    s = w1 ++ s1 /\ matches r1 w1 c c1 /\
    run r2 s1 c1 (fun w2 => k (w1 ++ w2)) = Some res.
Proof.
  cbn [run]; intros H.
  apply run_sound in H as (w1 & s1 & c1 & -> & Hm & H). eauto 6.
Qed.

Lemma search_here r s m :
  search r s = Some m ->
  exists pre s', s = pre ++ s' /\ match_here r s' = Some m.
Proof.
  induction s as [|a s IH]; simpl.
  - destruct (match_here r "") eqn:H; [|discriminate].
    intros [= <-]; now exists "", "".
  - destruct (match_here r (String a s)) eqn:H.
    + intros [= <-]; now exists "", (String a s).
    + intros Hs; apply IH in Hs as (pre & s' & -> & Hm).
      now exists (String a pre), s'.
Qed.

Lemma run_seq_eq {A} r1 r2 s c (k : @cont A) :
  run (Seq r1 r2) s c k
  = run r1 s c (fun w1 s1 c1 => run r2 s1 c1 (fun w2 => k (w1 ++ w2))).
Proof. reflexivity. Qed.

Lemma run_grp_eq {A} n r s c (k : @cont A) :
  run (Grp n r) s c k = run r s c (fun w s' c' => k w s' ((n, w) :: c')).
Proof. reflexivity. Qed.

(** The end of both patterns: group [g] holds the longest numeral at
    its place. *)
Lemma tail_longest g g' s c (k : @cont captures) m :
  Nat.eqb g' g = false ->
  (forall w s' c', k w s' c' = Some c') ->
  run (Seq (Grp g (Seq (Plus Str.is_digit)
                       (Opt (Seq (Lit ".") (Plus Str.is_digit)))))
           (Opt (Grp g' (Alt (Seq (Star Str.is_space) (Lit "%"))
                             (Lit " percent")))))
      s c k = Some m ->
  exists v rest, take_numeral s = Some (v, rest) /\ group m g = Some v.
Proof.
  intros Hg Hret. rewrite run_seq_eq, run_grp_eq, numeral_total.
  2:{ intros w s' c'. apply or_else_some. right. rewrite Hret; discriminate. }
  destruct (take_numeral s) as [[v rest]|]; [|discriminate].
  intros H; apply run_sound in H as (w & s' & c' & _ & Hm & Hk).
  rewrite Hret in Hk; injection Hk as <-.
  exists v, rest; split; [reflexivity|].
  apply indicator_matches in Hm as [[-> _] | (p & -> & _ & _)];
    cbn [group]; rewrite ?Hg; now rewrite Nat.eqb_refl.
Qed.

Lemma last_app_cons x a w : Str.last (x ++ String a w) = Str.last (String a w).
Proof.
  induction x as [|b x IH]; [reflexivity|].
  cbn [append]. change (Str.last (String b (x ++ String a w)))
    with (match x ++ String a w with
          | "" => Some b
          | _ => Str.last (x ++ String a w)
          end).
  rewrite IH. now destruct x.
Qed.

Lemma last_all p a w :
  p a = true -> Str.all p w = true ->
  exists b, Str.last (String a w) = Some b /\ p b = true.
Proof.
  revert a; induction w as [|c w IH]; intros a Ha Hw; [now exists a|].
  simpl in Hw; apply andb_prop in Hw as [Hc Hw].
  destruct (IH c Hc Hw) as (b & Hb & Hpb). now exists b.
Qed.

Ltac peel H :=
  let w := fresh "w" in let s := fresh "s" in let c := fresh "c" in
  let M := fresh "M" in
  apply seq_peel in H as (w & s & c & -> & M & H).

(** The number [adjust_personality] reads for a named adjustment is the
    whole number at that place of the utterance. *)
Lemma pattern_full_numeral u m v :
  Re.search pattern_full u = Some m -> group m 4 = Some v ->
  exists pre rest,
    u = pre ++ v ++ rest /\
    (exists b, Str.last pre = Some b /\ Str.is_space b = true) /\
    starts_with_digit rest = false /\
    (Str.contains "." v = false -> starts_with_fraction rest = false).
Proof.
  intros Hs Hv. apply search_here in Hs as (pre & s' & -> & H).
  unfold match_here, pattern_full in H; cbn [cat] in H.
  do 8 peel H.
  apply tail_longest in H as (v' & rest & Ht & Hg); [|reflexivity|reflexivity].
  assert (v' = v) by congruence; subst v'.
  apply take_numeral_spec in Ht as (-> & _ & Hd & Hf).
  match goal with
  | M : matches (Plus Str.is_space) ?w _ _ |- _ =>
      inversion M as [| |cls a ws cc Ha Hws| | | | | |]; subst
  end.
  exists (pre ++ w ++ w0 ++ w1 ++ w2 ++ w3 ++ w4 ++ w5 ++ String a ws), rest.
  split; [now rewrite !append_assoc|].
  split; [|split; assumption].
  rewrite <- !append_assoc, last_app_cons. now apply (last_all Str.is_space).
Qed.

Lemma pattern_it_numeral u m v :
  Re.search pattern_it u = Some m -> group m 2 = Some v ->
  exists pre rest,
    u = pre ++ v ++ rest /\
    (exists b, Str.last pre = Some b /\ Str.is_space b = true) /\
    starts_with_digit rest = false /\
    (Str.contains "." v = false -> starts_with_fraction rest = false).
Proof.
  intros Hs Hv. apply search_here in Hs as (pre & s' & -> & H).
  unfold match_here, pattern_it in H; cbn [cat] in H.
  do 6 peel H.
  apply tail_longest in H as (v' & rest & Ht & Hg); [|reflexivity|reflexivity].
  assert (v' = v) by congruence; subst v'.
  apply take_numeral_spec in Ht as (-> & _ & Hd & Hf).
  match goal with
  | M : matches (Plus Str.is_space) ?w _ _ |- _ =>
      inversion M as [| |cls a ws cc Ha Hws| | | | | |]; subst
  end.
  exists (pre ++ w ++ w0 ++ w1 ++ w2 ++ w3 ++ String a ws), rest.
  split; [now rewrite !append_assoc|].
  split; [|split; assumption].
  rewrite <- !append_assoc, last_app_cons. now apply (last_all Str.is_space).
Qed.

End NumeralFacts.

(* ===================================================================== *)
(** ** Everything one turn can do *)

Module TraceFacts.

Import Re Float Tars Spec Session Shape.
Import ReFacts FloatFacts PatternFacts AdjustFacts TurnFacts ResponseFacts.

Lemma spoken_app t1 t2 : spoken (t1 ++ t2) = (spoken t1 ++ spoken t2)%list.
Proof. induction t1 as [|[] t1 IH]; simpl; congruence. Qed.

Lemma launched_app t1 t2 :
  launched (t1 ++ t2) = (launched t1 ++ launched t2)%list.
Proof. induction t1 as [|[] t1 IH]; simpl; congruence. Qed.

Lemma chats_app t1 t2 : chats (t1 ++ t2) = (chats t1 ++ chats t2)%list.
Proof. induction t1 as [|[] t1 IH]; simpl; congruence. Qed.

Lemma printed_app t1 t2 :
  printed (t1 ++ t2) = (printed t1 ++ printed t2)%list.
Proof. induction t1 as [|[] t1 IH]; simpl; congruence. Qed.

(** The two traces of [generate_llm_response]. *)
Lemma generate_llm_response_lines u w st :
  snd (generate_llm_response u w st)
  = [Chat (system_prompt st) u;
     Print (match chat w (system_prompt st) u with
            | ChatRaises => "LLM error: "
            | _ => "Raw LLM response:"
            end)].
Proof.
  unfold generate_llm_response, bind, get, ask, emit, print, ret.
  now destruct (chat w (system_prompt st) u).
Qed.

(** Everything [execute_command] can do. *)
Lemma execute_command_cases u w st :
  let '(executed, st', t) := execute_command u w st in
  st' = st /\ chats t = [] /\ forallb expected_event t = true /\
  (launched t = [] \/
   exists e, launched t = [e] /\ In e fixed_launches /\
             (Str.contains "open browser" u = true \/
              Str.contains "system info" u = true)) /\
  (if executed
   then spoken t = [confirmation u] /\
        (Str.contains "open browser" u = true \/
         Str.contains "system info" u = true)
   else spoken t = []).
Proof.
  unfold execute_command, confirmation, fixed_launches, bind, ask,
    call_popen, call_system, speak, print, emit, ret; simpl.
  destruct (Str.contains "open browser" u);
    [|destruct (Str.contains "system info" u)];
    try (destruct (os_name w =? "posix"); [|destruct (os_name w =? "nt")]);
    simpl;
    try destruct (popen w _ _); try destruct (os_system w _); simpl;
    repeat split; auto;
    right; eexists; (split; [reflexivity|]); simpl; auto 6.
Qed.

(** With a pending parameter that is [None], ["honesty"] or ["humor"],
    a run of [adjust_personality] that returns [None] changes nothing
    and prints nothing. *)
Lemma adjust_none_valid u w st st0 t0 :
  valid_pending st ->
  adjust_personality u w st = (None, st0, t0) -> st0 = st /\ t0 = [].
Proof.
  intros Hv E.
  destruct (Re.search pattern_full u) as [m|] eqn:Hs.
  - destruct (adjust_named u m w st Hs) as (p & v & n & _ & _ & _ & _ & E').
    cbv zeta in E'; congruence.
  - unfold adjust_personality in E; rewrite Hs in E.
    destruct (Re.search pattern_it u) as [m|] eqn:Hs2.
    + destruct Hv as [Hp | Hp].
      * rewrite adjust_pending_none in E by (right; now rewrite Hp).
        now injection E as <- <-.
      * assert (Hor : exists p, pending_param st = Some p /\
                                (p = "honesty" \/ p = "humor"))
          by (destruct Hp as [Hp|Hp]; eauto).
        destruct Hor as (p & Hp' & Hor).
        destruct (adjust_pending_some u m w st p Hs2 Hp' Hor)
          as (v & n & _ & _ & E').
        cbv zeta in E'; congruence.
    + rewrite adjust_pending_none in E by now left.
      now injection E as <- <-.
Qed.

Lemma system_prompt_clear st : system_prompt (clear_pending st) = system_prompt st.
Proof. reflexivity. Qed.

Lemma asked_none u :
  asks_honesty u = false -> asks_humor u = false -> asked u = None.
Proof. unfold asked; now intros -> ->. Qed.

(** Everything one turn can do.  [st0] and [t0] are what a run of
    [adjust_personality] that returns [None] leaves behind. *)
Lemma turn_cases u w st :
  exists st0 t0,
    (st0 = st \/ st0 = clear_pending st) /\
    spoken t0 = [] /\ launched t0 = [] /\ chats t0 = [] /\
    (valid_pending st -> st0 = st /\ t0 = []) /\
    ((u = "" /\ turn u w st = (Continue, st, [])) \/
     (exists p, asked u = Some p /\
                turn u w st = (Continue, with_pending p st, [Speak (answer p st)])) \/
     (Str.truthy u = true /\ asked u = None /\
      exists param x,
        (param = "honesty" \/ param = "humor") /\ in_unit x = true /\
        turn u w st = (Continue, store param x st, [Speak (adjusted param x)])) \/
     (Str.truthy u = true /\ asked u = None /\
      Str.contains_any exit_words u = true /\
      turn u w st = (Break, st0, (t0 ++ [Speak "Shutting down. Goodbye."])%list)) \/
     (Str.truthy u = true /\ asked u = None /\
      Str.contains_any exit_words u = false /\
      fst (fst (execute_command u w st0)) = true /\
      turn u w st = (Continue, st0, (t0 ++ snd (execute_command u w st0))%list)) \/
     (Str.truthy u = true /\ asked u = None /\
      Str.contains_any exit_words u = false /\
      fst (fst (execute_command u w st0)) = false /\
      turn u w st =
      (Continue, st0,
       (t0 ++ snd (execute_command u w st0)
           ++ snd (generate_llm_response u w st0)
           ++ [Speak (fst (fst (generate_llm_response u w st0)))])%list))).
Proof.
  destruct (Str.truthy u) eqn:Ht.
  2:{ exists st, []; repeat split; auto.
      left; destruct u; [split; reflexivity | discriminate]. }
  destruct (asks_honesty u) eqn:H1.
  { exists st, []; repeat split; auto. right; left; exists "honesty".
    unfold asked; rewrite H1. split; [reflexivity | now apply turn_asks_honesty]. }
  destruct (asks_humor u) eqn:H2.
  { exists st, []; repeat split; auto. right; left; exists "humor".
    unfold asked; rewrite H1, H2.
    split; [reflexivity | now apply turn_asks_humor]. }
  pose proof (asked_none u H1 H2) as Ha.
  pose proof (adjust_personality_cases u w st) as Hc.
  destruct (adjust_personality u w st) as [[r st0] t0] eqn:E.
  destruct Hc as [(-> & Hst & Hsp & Hl & Hch) | (param & x & Hor & Hx & -> & -> & ->)].
  2:{ exists st, []; repeat split; auto. right; right; left.
      repeat split; auto. exists param, x; repeat split; auto.
      now rewrite (turn_adjusted u w st param x _ [] Ht H1 H2 E). }
  exists st0, t0.
  split; [exact Hst|]. split; [exact Hsp|]. split; [exact Hl|].
  split; [exact Hch|].
  split; [intros Hv; exact (adjust_none_valid u w st st0 t0 Hv E)|].
  right; right; right.
  assert (Eturn : turn u w st =
    if Str.contains_any exit_words u
    then (Break, st0, (t0 ++ [Speak "Shutting down. Goodbye."])%list)
    else if fst (fst (execute_command u w st0))
         then (Continue, st0, (t0 ++ snd (execute_command u w st0))%list)
         else (Continue, st0,
               (t0 ++ snd (execute_command u w st0)
                   ++ snd (generate_llm_response u w st0)
                   ++ [Speak (fst (fst (generate_llm_response u w st0)))])%list)).
  { rewrite turn_not_asking by assumption.
    unfold bind at 1; rewrite E; cbn [Str.truthy_opt].
    destruct (Str.contains_any exit_words u); [reflexivity|].
    unfold bind at 1.
    pose proof (execute_command_state u w st0) as Hxs.
    destruct (execute_command u w st0) as [[[|] st1] t1]; simpl in Hxs; subst st1.
    { cbn. now rewrite app_nil_r. }
    unfold bind at 1.
    pose proof (generate_llm_response_state u w st0) as Hgs.
    destruct (generate_llm_response u w st0) as [[resp st2] t2];
      simpl in Hgs; subst st2.
    cbn. now rewrite <- ?app_assoc. }
  rewrite Eturn.
  destruct (Str.contains_any exit_words u) eqn:He; [left; auto|].
  right. destruct (fst (fst (execute_command u w st0))) eqn:Hx;
    [left | right]; auto 6.
Qed.

(** The sentence of [generate_llm_response] is not empty and ends in a
    terminator, also when [chat] raises. *)
Lemma generate_llm_response_shape u w st :
  let r := fst (fst (generate_llm_response u w st)) in
  Str.truthy r = true /\ Str.ends_with_terminator r = true.
Proof.
  cbv zeta. destruct (chat w (system_prompt st) u) eqn:Ec.
  - unfold generate_llm_response, bind, get, ask, emit, print, ret.
    rewrite Ec. split; reflexivity.
  - rewrite generate_llm_response_value by congruence. apply one_liner_shape.
  - rewrite generate_llm_response_value by congruence. apply one_liner_shape.
Qed.

Lemma generate_llm_response_quiet u w st :
  spoken (snd (generate_llm_response u w st)) = [] /\
  launched (snd (generate_llm_response u w st)) = [] /\
  chats (snd (generate_llm_response u w st)) = [Chat (system_prompt st) u] /\
  forallb expected_event (snd (generate_llm_response u w st)) = true.
Proof.
  rewrite generate_llm_response_lines.
  destruct (chat w (system_prompt st) u); repeat split; reflexivity.
Qed.

Lemma confirmation_truthy u : Str.truthy (confirmation u) = true.
Proof. unfold confirmation; now destruct (Str.contains _ _). Qed.

Lemma asked_param u p :
  asked u = Some p -> (p = "honesty" \/ p = "humor") /\ Str.truthy u = true.
Proof.
  unfold asked. destruct (asks_honesty u) eqn:H1.
  - intros [= <-]; split; [auto | now apply asks_honesty_truthy].
  - destruct (asks_humor u) eqn:H2; [|discriminate].
    intros [= <-]; split; [auto | now apply asks_humor_truthy].
Qed.

(** A turn with a non-empty utterance speaks one sentence, which is
    not empty. *)
Lemma turn_speaks_once u w st :
  Str.truthy u = true ->
  exists s, spoken (snd (turn u w st)) = [s] /\ Str.truthy s = true.
Proof.
  intros Ht.
  destruct (turn_cases u w st)
    as (st0 & t0 & _ & Hsp & _ & _ & _ & Hc).
  destruct Hc as [[-> _] | [(p & _ & ->) | [(_ & _ & param & x & Hor & _ & ->) |
                 [(_ & _ & _ & ->) | [(_ & _ & _ & Hx & ->) | (_ & _ & _ & Hx & ->)]]]]].
  - discriminate Ht.
  - now exists (answer p st).
  - exists (adjusted param x); split; [reflexivity|].
    now destruct Hor as [-> | ->].
  - cbn [snd]; rewrite spoken_app, Hsp. now eexists.
  - cbn [snd]; rewrite spoken_app, Hsp.
    pose proof (execute_command_cases u w st0) as Hec.
    destruct (execute_command u w st0) as [[ex st1] t1]; simpl in Hx; subst ex.
    destruct Hec as (_ & _ & _ & _ & Hs & _). cbn [snd]; rewrite Hs.
    exists (confirmation u); split; [reflexivity | apply confirmation_truthy].
  - cbn [snd]; rewrite !spoken_app, Hsp.
    pose proof (execute_command_cases u w st0) as Hec.
    destruct (execute_command u w st0) as [[ex st1] t1]; simpl in Hx; subst ex.
    destruct Hec as (_ & _ & _ & _ & Hs). cbn [snd]; rewrite Hs.
    destruct (generate_llm_response_quiet u w st0) as (-> & _).
    exists (fst (fst (generate_llm_response u w st0))); split; [reflexivity|].
    apply generate_llm_response_shape.
Qed.

(** A turn keeps [pending_param] among [None], ["honesty"] and
    ["humor"], and prints none but the expected lines. *)
Lemma turn_valid u w st :
  valid_pending st ->
  valid_pending (snd (fst (turn u w st))) /\
  forallb expected_event (snd (turn u w st)) = true.
Proof.
  intros Hv.
  destruct (turn_cases u w st)
    as (st0 & t0 & _ & _ & _ & _ & Hval & Hc).
  destruct (Hval Hv) as [-> ->]; clear Hval.
  destruct Hc as [[-> ->] | [(p & Hp & ->) | [(_ & _ & param & x & Hor & _ & ->) |
                 [(_ & _ & _ & ->) | [(_ & _ & _ & Hx & ->) | (_ & _ & _ & Hx & ->)]]]]];
    cbn [fst snd app].
  - auto.
  - split; [|reflexivity]. destruct (asked_param u p Hp) as [[-> | ->] _];
      unfold valid_pending; simpl; auto.
  - split; [|reflexivity]. destruct Hor as [-> | ->]; now left.
  - auto.
  - split; [exact Hv|].
    pose proof (execute_command_cases u w st) as Hec.
    destruct (execute_command u w st) as [[ex st1] t1].
    now destruct Hec as (_ & _ & He & _).
  - split; [exact Hv|].
    pose proof (execute_command_cases u w st) as Hec.
    destruct (execute_command u w st) as [[ex st1] t1].
    destruct Hec as (_ & _ & He & _). cbn [snd].
    rewrite !forallb_app, He.
    destruct (generate_llm_response_quiet u w st) as (_ & _ & _ & ->).
    reflexivity.
Qed.

Lemma loop_valid inputs : forall st,
  valid_pending st ->
  valid_pending (snd (fst (loop inputs st))) /\
  forallb expected_event (snd (loop inputs st)) = true.
Proof.
  induction inputs as [|[w u] rest IH]; intros st Hv; cbn [loop]; [auto|].
  destruct (turn_valid u w st Hv) as [Hv1 He1].
  destruct (turn u w st) as [[[|] st1] t1]; cbn [fst snd] in *; [|auto].
  destruct (IH st1 Hv1) as [Hv2 He2].
  destruct (loop rest st1) as [[c2 st2] t2]; cbn [fst snd] in *.
  split; [exact Hv2 | now rewrite forallb_app, He1, He2].
Qed.


End TraceFacts.

(* ===================================================================== *)
(** ** The words of an adjustment *)

Module WordFacts.

Import Re Float Tars Spec Session Shape.
Import ReFacts FloatFacts PatternFacts AdjustFacts NumeralFacts.

Lemma any_app_l p x y : any p x = true -> any p (x ++ y) = true.
Proof.
  induction x as [|a x IH]; simpl; [discriminate|].
  intros H; apply orb_prop in H as [-> | H]; [reflexivity|].
  rewrite (IH H); apply orb_true_r.
Qed.

Lemma any_app_r p x y : any p y = true -> any p (x ++ y) = true.
Proof.
  intros H; induction x as [|a x IH]; simpl; [exact H|].
  rewrite IH; apply orb_true_r.
Qed.

Lemma numeral_any v : numeral v -> any Str.is_digit v = true.
Proof. intros [a d Ha _ | a d b e Ha _ _ _]; simpl; now rewrite Ha. Qed.

Ltac find_word :=
  solve [repeat first [apply contains_here | apply contains_app_r]].

Ltac find_digit :=
  solve [repeat first [apply any_app_l; apply numeral_any; assumption
                      | apply any_app_r]].

(** The words in a match of [pattern_full]. *)
Lemma pattern_full_words w m :
  matches pattern_full w [] m ->
  (Str.contains "set" w = true \/ Str.contains "adjust" w = true) /\
  (Str.contains "honesty" w = true \/ Str.contains "humor" w = true) /\
  Str.contains "to" w = true /\ any Str.is_digit w = true.
Proof.
  unfold pattern_full; cbn [cat]. intros H.
  repeat match goal with
  | H : matches (Seq _ (Seq _ _)) _ _ _ |- _ => inversion H; subst; clear H
  end.
  match goal with
  | H : matches (Seq (Grp 4 _) _) _ _ _ |- _ => inversion H; subst; clear H
  end.
  repeat match goal with
  | H : matches (Grp 4 _) _ _ _ |- _ => inversion H; subst; clear H
  | H : matches (Seq (Plus Str.is_digit) _) _ _ _ |- _ =>
      apply numeral_matches in H as [? ->]
  | H : matches (Grp 1 _) _ _ _ |- _ => inversion H; subst; clear H
  | H : matches (Grp 2 _) _ _ _ |- _ => inversion H; subst; clear H
  | H : matches (Alt (Lit _) (Lit _)) _ _ _ |- _ => inversion H; subst; clear H
  | H : matches (Lit _) _ _ _ |- _ => inversion H; subst; clear H
  end;
  (split; [first [left; find_word | right; find_word]|]);
  (split; [first [left; find_word | right; find_word]|]);
  (split; [find_word | find_digit]).
Qed.

(** The words in a match of [pattern_it]. *)
Lemma pattern_it_words w m :
  matches pattern_it w [] m ->
  (Str.contains "set" w = true \/ Str.contains "adjust" w = true) /\
  Str.contains "it" w = true /\
  Str.contains "to" w = true /\ any Str.is_digit w = true.
Proof.
  unfold pattern_it; cbn [cat]. intros H.
  repeat match goal with
  | H : matches (Seq _ (Seq _ _)) _ _ _ |- _ => inversion H; subst; clear H
  end.
  match goal with
  | H : matches (Seq (Grp 2 _) _) _ _ _ |- _ => inversion H; subst; clear H
  end.
  repeat match goal with
  | H : matches (Grp 2 _) _ _ _ |- _ => inversion H; subst; clear H
  | H : matches (Seq (Plus Str.is_digit) _) _ _ _ |- _ =>
      apply numeral_matches in H as [? ->]
  | H : matches (Grp 1 _) _ _ _ |- _ => inversion H; subst; clear H
  | H : matches (Alt (Lit _) (Lit _)) _ _ _ |- _ => inversion H; subst; clear H
  | H : matches (Lit _) _ _ _ |- _ => inversion H; subst; clear H
  end;
  (split; [first [left; find_word | right; find_word]|]);
  (split; [find_word|]);
  (split; [find_word | find_digit]).
Qed.

Lemma contains_mid sub pre w post :
  Str.contains sub w = true -> Str.contains sub (pre ++ w ++ post) = true.
Proof. intros H; now apply contains_app_r, contains_app_l. Qed.

Lemma any_mid p pre w post :
  any p w = true -> any p (pre ++ w ++ post) = true.
Proof. intros H; now apply any_app_r, any_app_l. Qed.

End WordFacts.

(* ===================================================================== *)
(** ** Further properties of the program *)

Module Extras.

Import Re Float Tars Spec Session Shape.
Import ReFacts FloatFacts PatternFacts AdjustFacts TurnFacts ResponseFacts.
Import NumeralFacts TraceFacts WordFacts.

(** X1.  Whatever [chat] returns or raises, the sentence that
    [generate_llm_response] returns is not empty and ends in a point,
    an exclamation mark or a question mark. *)
Theorem X1_response_is_a_terminated_sentence :
  forall u w st,
    let r := fst (fst (generate_llm_response u w st)) in
    r <> "" /\ exists c, Str.last r = Some c /\ In c ["."; "!"; "?"]%char.
Proof.
  intros u w st r.
  destruct (generate_llm_response_shape u w st) as [Ht He]; fold r in Ht, He.
  split; [now destruct r|].
  unfold Str.ends_with_terminator in He.
  destruct (Str.last r) as [c|]; [|discriminate].
  exists c; split; [reflexivity|].
  unfold Str.is_terminator in He.
  apply orb_prop in He as [He | He]; [apply orb_prop in He as [He | He]|];
    apply Ascii.eqb_eq in He; subst; simpl; auto.
Qed.

(** X2.  The sentence that [generate_llm_response] returns is one
    sentence: no space in it follows a terminator, so splitting it again
    gives the sentence itself; it has no space at either end; and the
    one-liner step gives it back unchanged. *)
Theorem X2_response_is_one_stripped_sentence :
  forall u w st,
    let r := fst (fst (generate_llm_response u w st)) in
    split_sentences r = [r] /\ Str.strip r = r /\ one_liner r = r.
Proof.
  intros u w st r.
  assert (H : boundary_free false r = true /\ Str.strip r = r /\ one_liner r = r).
  { subst r. destruct (chat w (system_prompt st) u) eqn:Ec.
    - unfold generate_llm_response, bind, get, ask, emit, print, ret.
      rewrite Ec. repeat split; reflexivity.
    - rewrite generate_llm_response_value by congruence. apply one_liner_fixed.
    - rewrite generate_llm_response_value by congruence. apply one_liner_fixed. }
  destruct H as (Hb & Hs & Ho); repeat split; try assumption.
  now apply split_boundary_free.
Qed.

(** X3.  The numeral that a match of either pattern puts in its number
    group is the whole number at that place of the utterance: a space
    stands before it, no digit follows it, and when it has no point no
    point with a digit follows it. *)
Theorem X3_number_is_read_whole :
  forall u m v,
    (Re.search pattern_full u = Some m /\ group m 4 = Some v) \/
    (Re.search pattern_it u = Some m /\ group m 2 = Some v) ->
    exists pre rest,
      u = pre ++ v ++ rest /\
      (exists b, Str.last pre = Some b /\ Str.is_space b = true) /\
      starts_with_digit rest = false /\
      (Str.contains "." v = false -> starts_with_fraction rest = false).
Proof.
  intros u m v [[Hs Hv] | [Hs Hv]];
    [exact (pattern_full_numeral u m v Hs Hv)
    | exact (pattern_it_numeral u m v Hs Hv)].
Qed.

Lemma X3_witness :
  let u := "set humor to 45.5 percent" in
  let m := [(5, " percent"); (4, "45.5"); (2, "humor"); (1, "set")] in
  ((Re.search pattern_full u = Some m /\ group m 4 = Some "45.5") \/
   (Re.search pattern_it u = Some m /\ group m 2 = Some "45.5")) /\
  exists pre rest,
    u = pre ++ "45.5" ++ rest /\
    (exists b, Str.last pre = Some b /\ Str.is_space b = true) /\
    starts_with_digit rest = false /\
    (Str.contains "." "45.5" = false -> starts_with_fraction rest = false).
Proof.
  intros u m.
  assert (H : (Re.search pattern_full u = Some m /\ group m 4 = Some "45.5") \/
              (Re.search pattern_it u = Some m /\ group m 2 = Some "45.5"))
    by (left; split; reflexivity).
  split; [exact H | exact (X3_number_is_read_whole u m "45.5" H)].
Defined.

(** X4.  [adjust_personality] returns a confirmation only for an
    utterance that contains "set" or "adjust", the word "to", a digit,
    and one of "honesty", "humor" and "it". *)
Theorem X4_no_adjustment_without_its_words :
  forall u w st a,
    fst (fst (adjust_personality u w st)) = Some a ->
    (Str.contains "set" u = true \/ Str.contains "adjust" u = true) /\
    (Str.contains "honesty" u = true \/ Str.contains "humor" u = true \/
     Str.contains "it" u = true) /\
    Str.contains "to" u = true /\ any Str.is_digit u = true.
Proof.
  intros u w st a H.
  destruct (Re.search pattern_full u) as [m|] eqn:Hs.
  - apply search_sound in Hs as (pre & mw & post & -> & Hm).
    destruct (pattern_full_words mw m Hm) as (Hv & Hp & Hto & Hd).
    split; [destruct Hv; [left | right]; now apply contains_mid|].
    split; [destruct Hp; [left | right; left]; now apply contains_mid|].
    split; [now apply contains_mid | now apply any_mid].
  - unfold adjust_personality in H; rewrite Hs in H.
    destruct (Re.search pattern_it u) as [m|] eqn:Hs2.
    + apply search_sound in Hs2 as (pre & mw & post & -> & Hm).
      destruct (pattern_it_words mw m Hm) as (Hv & Hp & Hto & Hd).
      split; [destruct Hv; [left | right]; now apply contains_mid|].
      split; [right; right; now apply contains_mid|].
      split; [now apply contains_mid | now apply any_mid].
    + rewrite adjust_pending_none in H by now left. discriminate H.
Qed.

Lemma X4_witness :
  let u := "please adjust your humor to 30 percent" in
  let a := "Adjusted my humor level to 30 percent." in
  fst (fst (adjust_personality u quiet initial)) = Some a /\
  (Str.contains "set" u = true \/ Str.contains "adjust" u = true) /\
  (Str.contains "honesty" u = true \/ Str.contains "humor" u = true \/
   Str.contains "it" u = true) /\
  Str.contains "to" u = true /\ any Str.is_digit u = true.
Proof.
  intros u a.
  assert (H : fst (fst (adjust_personality u quiet initial)) = Some a)
    by (vm_compute; reflexivity).
  split; [exact H | exact (X4_no_adjustment_without_its_words u quiet initial a H)].
Defined.

(** X5.  In every run of [main], [pending_param] is [None],
    ["honesty"] or ["humor"]. *)
Theorem X5_pending_is_none_or_a_parameter :
  forall inputs : list (world * string),
    let st := snd (fst (main inputs)) in
    pending_param st = None \/ pending_param st = Some "honesty" \/
    pending_param st = Some "humor".
Proof.
  intros inputs; unfold main; simpl.
  destruct (loop_valid inputs initial) as [Hv _]; [now left|].
  now destruct (loop inputs initial) as [[c st] t].
Qed.


(** X7.  A turn changes a level only by an adjustment it announces:
    either both levels are as before, or one parameter has got a value
    between 0 and 1, nothing is pending, and the one event of the turn
    is the confirmation for that parameter and value. *)
Theorem X7_every_change_is_announced :
  forall u w st,
    let '(c, st', t) := turn u w st in
    (honesty_level st' = honesty_level st /\
     humor_level st' = humor_level st) \/
    (exists param x,
        (param = "honesty" \/ param = "humor") /\ in_unit x = true /\
        c = Continue /\ st' = store param x st /\
        t = [Speak (adjusted param x)]).
Proof.
  intros u w st.
  destruct (turn_cases u w st)
    as (st0 & t0 & Hst & _ & _ & _ & _ & Hc).
  assert (H0 : honesty_level st0 = honesty_level st /\
               humor_level st0 = humor_level st)
    by (destruct Hst as [-> | ->]; split; reflexivity).
  destruct Hc as [[_ ->] | [(p & _ & ->) | [(_ & _ & param & x & Hor & Hx & ->) |
                 [(_ & _ & _ & ->) | [(_ & _ & _ & _ & ->) | (_ & _ & _ & _ & ->)]]]]];
    try (left; assumption); try (left; split; reflexivity).
  right; exists param, x; auto.
Qed.

(** X8.  A turn with an empty utterance speaks nothing; a turn with any
    other utterance speaks exactly one sentence, and that sentence is
    not empty. *)
Theorem X8_one_sentence_per_utterance :
  forall u w st,
    match u with
    | "" => spoken (snd (turn u w st)) = []
    | _ => exists s, spoken (snd (turn u w st)) = [s] /\ s <> ""
    end.
Proof.
  intros [|c u] w st; [reflexivity|].
  destruct (turn_speaks_once (String c u) w st eq_refl) as (s & Hs & Ht).
  exists s; split; [exact Hs | now destruct s].
Qed.

Lemma turn_break u w st :
  fst (fst (turn u w st)) = Break ->
  Str.contains_any exit_words u = true /\ asked u = None /\
  exists t0, snd (turn u w st) = (t0 ++ [Speak "Shutting down. Goodbye."])%list /\
             launched t0 = [] /\ chats t0 = [].
Proof.
  destruct (turn_cases u w st)
    as (st0 & t0 & _ & _ & Hl & Hch & _ & Hc).
  destruct Hc as [[_ ->] | [(p & _ & ->) | [(_ & _ & param & x & _ & _ & ->) |
                 [(_ & Ha & He & ->) | [(_ & _ & _ & _ & ->) | (_ & _ & _ & _ & ->)]]]]];
    try discriminate.
  intros _; repeat split; try assumption. now exists t0.
Qed.

(** X9.  The loop ends only on an exit word: when a run has ended, one
    of its utterances contains "exit", "shut down" or "goodbye" and is
    not a question, and the last event of the run is the farewell. *)
Theorem X9_loop_ends_only_on_an_exit_word :
  forall inputs st,
    fst (fst (loop inputs st)) = Break ->
    exists w u t,
      In (w, u) inputs /\ Str.contains_any exit_words u = true /\
      asked u = None /\
      snd (loop inputs st) = (t ++ [Speak "Shutting down. Goodbye."])%list.
Proof.
  induction inputs as [|[w u] rest IH]; intros st; cbn [loop]; [discriminate|].
  pose proof (turn_break u w st) as Hb.
  destruct (turn u w st) as [[[|] st1] t1]; cbn [fst snd] in *.
  - specialize (IH st1).
    destruct (loop rest st1) as [[c2 st2] t2]; cbn [fst snd] in *.
    intros Hc; destruct (IH Hc) as (w' & u' & t & Hin & He & Ha & ->).
    exists w', u', (t1 ++ t)%list; repeat split; auto.
    + now right.
    + now rewrite app_assoc.
  - intros _; destruct (Hb eq_refl) as (He & Ha & t0 & -> & _).
    exists w, u, t0; repeat split; auto. now left.
Qed.

Lemma X9_witness :
  let inputs := [(quiet, "what is your humor level"); (quiet, "goodbye");
                 (quiet, "set humor to 10")] in
  fst (fst (loop inputs initial)) = Break /\
  exists w u t,
    In (w, u) inputs /\ Str.contains_any exit_words u = true /\
    asked u = None /\
    snd (loop inputs initial) = (t ++ [Speak "Shutting down. Goodbye."])%list.
Proof.
  intros inputs.
  assert (H : fst (fst (loop inputs initial)) = Break) by reflexivity.
  split; [exact H | exact (X9_loop_ends_only_on_an_exit_word inputs initial H)].
Defined.

(** X10.  A turn calls the language model at most once, and then with
    the utterance as it is and the prompt made from the levels at the
    start of the turn; a turn that calls it is not a question, has no
    exit word, changes no level and does not end the loop. *)
Theorem X10_model_is_called_at_most_once :
  forall u w st,
    let '(c, st', t) := turn u w st in
    chats t = [] \/
    (chats t = [Chat (system_prompt st) u] /\
     asked u = None /\ Str.contains_any exit_words u = false /\
     c = Continue /\
     honesty_level st' = honesty_level st /\ humor_level st' = humor_level st).
Proof.
  intros u w st.
  destruct (turn_cases u w st)
    as (st0 & t0 & Hst & _ & _ & Hch & _ & Hc).
  destruct Hc as [[_ ->] | [(p & _ & ->) | [(_ & _ & param & x & _ & _ & ->) |
                 [(_ & _ & _ & ->) | [(_ & _ & _ & _ & ->) | (_ & Ha & He & _ & ->)]]]]];
    try (left; reflexivity).
  - left. now rewrite chats_app, Hch.
  - left. rewrite chats_app, Hch.
    pose proof (execute_command_cases u w st0) as Hec.
    destruct (execute_command u w st0) as [[ex st1] t1]; cbn [snd app].
    now destruct Hec as (_ & -> & _).
  - right. rewrite !chats_app, Hch.
    pose proof (execute_command_cases u w st0) as Hec.
    destruct (execute_command u w st0) as [[ex st1] t1].
    destruct Hec as (_ & Hc1 & _). cbn [snd]; rewrite Hc1.
    destruct (generate_llm_response_quiet u w st0) as (_ & _ & -> & _).
    destruct Hst as [-> | ->]; repeat split; auto.
Qed.

(** X11.  A turn launches at most one process, and only one of the four
    fixed commands; the text of the utterance is no part of the command.
    A turn that launches one has "open browser" or "system info" in the
    utterance, is not a question and has no exit word. *)
Theorem X11_launches_are_fixed_commands :
  forall u w st,
    let t := snd (turn u w st) in
    launched t = [] \/
    (exists e,
        launched t = [e] /\
        In e [Popen ["open"; "-a"; "Google Chrome"] false;
              Popen ["start"; "chrome"] true;
              System "uname -a"; System "systeminfo"] /\
        (Str.contains "open browser" u = true \/
         Str.contains "system info" u = true) /\
        asked u = None /\ Str.contains_any exit_words u = false).
Proof.
  intros u w st; cbv zeta.
  destruct (turn_cases u w st)
    as (st0 & t0 & _ & _ & Hl & _ & _ & Hc).
  destruct Hc as [[_ ->] | [(p & _ & ->) | [(_ & _ & param & x & _ & _ & ->) |
                 [(_ & _ & _ & ->) | [(_ & Ha & He & _ & ->) | (_ & Ha & He & _ & ->)]]]]];
    try (left; reflexivity); cbn [snd].
  - left. now rewrite launched_app, Hl.
  - rewrite launched_app, Hl.
    pose proof (execute_command_cases u w st0) as Hec.
    destruct (execute_command u w st0) as [[ex st1] t1].
    destruct Hec as (_ & _ & _ & [Hn | (e & He1 & Hin & Hk)] & _); cbn [snd app].
    + now left.
    + right; exists e; auto.
  - rewrite !launched_app, Hl.
    pose proof (execute_command_cases u w st0) as Hec.
    destruct (execute_command u w st0) as [[ex st1] t1].
    destruct (generate_llm_response_quiet u w st0) as (_ & Hg & _).
    rewrite Hg.
    destruct Hec as (_ & _ & _ & [Hn | (e & He1 & Hin & Hk)] & _); cbn [snd app].
    + left. now rewrite Hn.
    + right; exists e. rewrite He1. auto.
Qed.

(** X12.  On a system that is neither [posix] nor [nt] no turn launches
    anything, and [execute_command] still speaks the confirmation and
    returns [True] for an utterance with one of its keywords. *)
Theorem X12_other_systems_launch_nothing :
  forall u w st,
    os_name w <> "posix" -> os_name w <> "nt" ->
    launched (snd (turn u w st)) = [] /\
    (Str.contains "open browser" u = true \/
     Str.contains "system info" u = true ->
     execute_command u w st = (true, st, [Speak (confirmation u)])).
Proof.
  intros u w st H1 H2.
  apply String.eqb_neq in H1, H2.
  assert (Hx : forall st0, launched (snd (execute_command u w st0)) = [] /\
               (Str.contains "open browser" u = true \/
                Str.contains "system info" u = true ->
                execute_command u w st0 = (true, st0, [Speak (confirmation u)]))).
  { intros st0.
    unfold execute_command, confirmation, bind, ask, speak, emit, ret; simpl.
    rewrite H1, H2.
    destruct (Str.contains "open browser" u);
      [|destruct (Str.contains "system info" u)]; simpl; split; auto.
    intros [H | H]; discriminate H. }
  split; [|apply Hx].
  destruct (turn_cases u w st)
    as (st0 & t0 & _ & _ & Hl & _ & _ & Hc).
  destruct Hc as [[_ ->] | [(p & _ & ->) | [(_ & _ & param & x & _ & _ & ->) |
                 [(_ & _ & _ & ->) | [(_ & _ & _ & _ & ->) | (_ & _ & _ & _ & ->)]]]]];
    try reflexivity; cbn [snd]; rewrite ?launched_app, Hl.
  - reflexivity.
  - now destruct (Hx st0) as [-> _].
  - destruct (Hx st0) as [-> _].
    now destruct (generate_llm_response_quiet u w st0) as (_ & -> & _).
Qed.

Lemma X12_witness :
  let w := {| os_name := "java"; popen := fun _ _ => Raises;
              os_system := fun _ => Raises; chat := fun _ _ => ChatRaises |} in
  let u := "open browser" in
  (os_name w <> "posix" /\ os_name w <> "nt") /\
  launched (snd (turn u w initial)) = [] /\
  (Str.contains "open browser" u = true \/
   Str.contains "system info" u = true ->
   execute_command u w initial = (true, initial, [Speak (confirmation u)])).
Proof.
  intros w u.
  assert (H1 : os_name w <> "posix") by discriminate.
  assert (H2 : os_name w <> "nt") by discriminate.
  split; [split; assumption|].
  exact (X12_other_systems_launch_nothing u w initial H1 H2).
Defined.


(** X14.  After a named adjustment, a question about the same
    parameter reports the number that the confirmation gave. *)
Theorem X14_question_reports_the_adjusted_level :
  forall u m param q w1 w2 st,
    asks_honesty u = false -> asks_humor u = false ->
    Re.search pattern_full u = Some m -> group m 2 = Some param ->
    asked q = Some param ->
    let st1 := snd (fst (turn u w1 st)) in
    exists number,
      spoken (snd (turn u w1 st))
      = ["Adjusted my " ++ param ++ " level to " ++ number ++ " percent."] /\
      spoken (snd (turn q w2 st1))
      = ["My " ++ param ++ " level is " ++ number ++ " percent."].
Proof.
  intros u m param q w1 w2 st H1 H2 Hs Hp Hq.
  destruct (turn_named u m w1 st H1 H2 Hs) as (p & v & n & Hp' & Hor & _ & _ & E).
  assert (p = param) by congruence; subst p.
  cbv zeta in E |- *; rewrite E; cbn [fst snd spoken].
  set (x := normalized n (Str.truthy_opt (group m 5))).
  exists (percent x); split; [reflexivity|].
  unfold asked in Hq. destruct (asks_honesty q) eqn:Q1.
  - injection Hq as <-. now rewrite turn_asks_honesty.
  - destruct (asks_humor q) eqn:Q2; [|discriminate].
    injection Hq as <-. now rewrite turn_asks_humor.
Qed.

Lemma X14_witness :
  let u := "set your honesty level to 95%" in
  let m := [(5, "%"); (4, "95"); (3, " level"); (2, "honesty"); (1, "set")] in
  let q := "what is your honesty level now" in
  let st1 := snd (fst (turn u quiet initial)) in
  (asks_honesty u = false /\ asks_humor u = false /\
   Re.search pattern_full u = Some m /\ group m 2 = Some "honesty" /\
   asked q = Some "honesty") /\
  exists number,
    spoken (snd (turn u quiet initial))
    = ["Adjusted my " ++ "honesty" ++ " level to " ++ number ++ " percent."] /\
    spoken (snd (turn q mute st1))
    = ["My " ++ "honesty" ++ " level is " ++ number ++ " percent."].
Proof.
  intros u m q st1; split; [repeat split|].
  exact (X14_question_reports_the_adjusted_level u m "honesty" q quiet mute
           initial eq_refl eq_refl eq_refl eq_refl eq_refl).
Defined.

(** X15.  One pass through the loop: when the recognizer raises, or
    returns an empty text, nothing is spoken, launched or sent to the
    model, the globals are unchanged and the loop goes on; when it
    returns a text, the pass speaks exactly one sentence, which is not
    empty. *)
Theorem X15_one_pass_of_the_loop :
  forall r w st,
    let '(c, st', t) := iteration r w st in
    match r with
    | Heard (String _ _) => exists s, spoken t = [s] /\ s <> ""
    | _ => c = Continue /\ st' = st /\
           spoken t = [] /\ launched t = [] /\ chats t = []
    end.
Proof.
  intros r w st. unfold iteration, listen, bind, print, emit, ret.
  destruct r as [[|a text]| |]; try (cbn; auto 6; fail).
  destruct (turn_speaks_once (lower (String a text)) w st eq_refl)
    as (s & Hs & Ht).
  cbn -[turn lower].
  destruct (turn (lower (String a text)) w st) as [[c st'] t]; cbn [snd] in Hs.
  exists s; split; [exact Hs | now destruct s].
Qed.


Lemma split_head_prefix s : forall after,
  exists post, s = hd "" (split after s) ++ post.
Proof.
  induction s as [|c s IH]; intros after; simpl; [now exists ""|].
  destruct (after && Str.is_space c); [now exists (String c s)|].
  destruct (IH (Str.is_terminator c)) as [post Hp].
  pose proof (split_nonempty s (Str.is_terminator c)) as Hne.
  destruct (split (Str.is_terminator c) s) as [|p ps]; [congruence|].
  simpl in *. exists post; congruence.
Qed.

Lemma lstrip_decomp x :
  exists sp, x = sp ++ Str.lstrip x /\ Str.all Str.is_space sp = true.
Proof.
  induction x as [|c x (sp & IH & Hsp)]; simpl; [now exists ""|].
  destruct (Str.is_space c) eqn:Hc; [|now exists ""].
  exists (String c sp); simpl; rewrite Hc, Hsp; split; [congruence | reflexivity].
Qed.

Lemma rstrip_decomp y : exists sp, y = Str.rstrip y ++ sp.
Proof.
  induction y as [|c y (sp & IH)]; simpl; [now exists ""|].
  destruct (Str.rstrip y) as [|c' y'].
  - destruct (Str.is_space c); [exists (String c sp) | exists sp];
      simpl in *; congruence.
  - exists sp; simpl in *; congruence.
Qed.

(** X17.  The one-liner step cuts the reply and does not rewrite it:
    its result is a piece of the text it is given, taken after the
    spaces at the start, with at most a point added at the end. *)
Theorem X17_one_liner_is_a_piece_of_the_reply :
  forall s,
    exists pre piece post,
      s = pre ++ piece ++ post /\ Str.all Str.is_space pre = true /\
      (one_liner s = piece \/ one_liner s = piece ++ ".").
Proof.
  intros s. rewrite one_liner_check_is_dead; cbv zeta.
  destruct (split_head_prefix s false) as [post Hp].
  fold (split_sentences s) in Hp.
  set (first := hd "" (split_sentences s)) in *.
  destruct (lstrip_decomp first) as (sp & Hl & Hsp).
  destruct (rstrip_decomp (Str.lstrip first)) as (sp2 & Hr).
  exists sp, (Str.strip first), (sp2 ++ post); split; [|split; [exact Hsp|]].
  - unfold Str.strip. clearbody first.
    revert Hr; generalize (Str.rstrip (Str.lstrip first)); intros R Hr.
    revert Hl Hr; generalize (Str.lstrip first); intros l Hl Hr.
    subst. now rewrite !append_assoc.
  - destruct (Str.ends_with_terminator _); auto.
Qed.

End Extras.
